(** * nano-CAT: the XYn dissociation engine ([nanoCAT/bde/dissociate_xyn_v2.py])

    A shallow embedding of [MolDissociater] and of the module-level helpers
    it relies on, followed by the properties of the engine.

    Conventions of the embedding:
    - Python exceptions are values of [pyexc]; a call that can raise returns
      a [res].
    - NumPy integer arrays ([dtype=int], 64-bit) are lists of [Z]; the
      wrap-around of in-place arithmetic is written out with [wrap64].
    - Floating-point numbers are IEEE 754 binary64 values ([float]) and are
      compared as the machine compares them.  What SciPy and NumPy compute
      from them (a distance, a norm, the order of [np.argsort]) is taken
      from the interface [ArrayLib], not from an implementation.
    - Dictionaries whose iteration order is never observed are [gmap]s. *)

From Stdlib Require Import ZArith Lia List String DecimalString DecimalPos DecimalZ.
From Stdlib Require Import Floats.
From stdpp Require Import base option list gmap strings sorting.

Local Open Scope Z_scope.

(** ** Exceptions and the error monad *)

Module Py.

Inductive pyexc : Type :=
| AttributeError (attr : string)
| TypeError (msg : string)
| ValueError (msg : string)
| AbsentAtoms (smiles : string) (absent : string)
| OverflowError
| IndexError
| KeyError (key : Z)
| MoleculeError (msg : string).

Inductive res (A : Type) : Type :=
| Ok (a : A)
| Raise (e : pyexc).
Arguments Ok {A} a.
Arguments Raise {A} e.

Definition bind {A B} (m : res A) (k : A → res B) : res B :=
  match m with
  | Ok a => k a
  | Raise e => Raise e
  end.

Definition is_ok {A} (m : res A) : bool :=
  match m with Ok _ => true | Raise _ => false end.

(** [mapM f l]: evaluate [f] on the elements of [l] from left to right and
    stop at the first exception, as a list comprehension does. *)
Fixpoint mapM {A B} (f : A → res B) (l : list A) : res (list B) :=
  match l with
  | [] => Ok []
  | x :: l' =>
      match f x with
      | Raise e => Raise e
      | Ok y =>
          match mapM f l' with
          | Raise e => Raise e
          | Ok ys => Ok (y :: ys)
          end
      end
  end.

End Py.
Export Py.

#[global] Instance res_bind : MBind res := λ A B k m, Py.bind m k.
#[global] Instance res_ret : MRet res := λ A a, Ok a.

(** ** 64-bit integer arrays *)

Definition int64_min : Z := - 2 ^ 63.
Definition int64_max : Z := 2 ^ 63 - 1.

Definition in_int64 (z : Z) : bool := (int64_min <=? z) && (z <=? int64_max).

Definition wrap64 (z : Z) : Z := (z + 2 ^ 63) mod 2 ^ 64 - 2 ^ 63.

(** What a caller may pass where the code expects [Union[int, Iterable[int]]]:
    a single integer, a re-iterable sequence (list, tuple, range) or a
    one-shot iterator (generator). *)
Inductive pyindices : Type :=
| PyInt (z : Z)
| PySeq (l : list Z)
| PyIterator (l : list Z).

(** An integer [ndarray] of dimension 0 or 1. *)
Inductive ndarray : Type :=
| Nd0 (z : Z)
| Nd1 (l : list Z).

Definition ndim (a : ndarray) : nat :=
  match a with Nd0 _ => 0%nat | Nd1 _ => 1%nat end.

(** [np.array(..., dtype=int)] / [np.fromiter(..., dtype=int)]: a Python
    integer that does not fit 64 bits raises [OverflowError]. *)
Definition np_int_array (l : list Z) : res ndarray :=
  if forallb in_int64 l then Ok (Nd1 l) else Raise OverflowError.

(** [as_array(iterable, dtype=int, ndmin=ndmin)].  The last [if] reads the
    attribute [ret.ndmin], which an [ndarray] does not have. *)
Definition as_array (iterable : pyindices) (ndmin : nat) : res ndarray :=
  ret ← match iterable with
        | PyIterator l => np_int_array l
        | PySeq l => np_int_array l
        | PyInt z => if in_int64 z then Ok (Nd0 z) else Raise OverflowError
        end;
  if (ndim ret <? ndmin)%nat then Raise (AttributeError "ndmin") else Ok ret.

(** [a -= 1] on a 64-bit array. *)
Definition isub1 (a : ndarray) : ndarray :=
  match a with
  | Nd0 z => Nd0 (wrap64 (z - 1))
  | Nd1 l => Nd1 (map (λ z, wrap64 (z - 1)) l)
  end.

(** [a.sort()] *)
Definition np_sort (a : ndarray) : ndarray :=
  match a with
  | Nd0 z => Nd0 z
  | Nd1 l => Nd1 (merge_sort Z.le l)
  end.

(** The [core_idx] setter: the value stored in [self._core_idx]. *)
Definition core_idx_setter (value : pyindices) : res ndarray :=
  core_idx ← as_array value 1;
  Ok (np_sort (isub1 core_idx)).

(** ** Floating-point data and the numerical libraries

    A coordinate, a threshold, a distance and a norm are doubles.  The
    engine never computes on them itself: it compares them ([<=], [<]) and
    hands them to SciPy and NumPy.  Those library calls are the fields of
    [ArrayLib]; a property that is stated for every [ArrayLib] holds for
    whatever the installed libraries return. *)

(** A row of the [(n, 3)] coordinate array. *)
Definition point : Type := float * float * float.

Definition pt (x y z : float) : point := (x, y, z).
Arguments pt (x y z)%_float.

Class ArrayLib : Type := {
  (* one entry of [scipy.spatial.distance.cdist(XA, XB)]: the Euclidean
     distance of a row of [XA] and a row of [XB], as the double that SciPy
     returns *)
  euclidean : point → point → float;
  (* [np.linalg.norm] of a vector *)
  linalg_norm : list float → float;
  (* [np.argsort] of a vector.  The result is always a rearrangement of
     the places of the vector; in which order it lists equal keys is not
     fixed (the default sort kind is not stable) *)
  np_argsort : list float → list nat;
  np_argsort_perm : ∀ keys, np_argsort keys ≡ₚ seq 0 (length keys);
  (* [str(a)] of a 1-dimensional integer array within
     [np.printoptions(threshold=0, edgeitems=3)] *)
  array_str : list Z → string;
  (* [np.array] on nested sequences that mix integers and tuples: an
     object array before NumPy 1.24 ([true]), a [ValueError] since *)
  ragged_as_object : bool
}.

Section Engine.
Context {lib : ArrayLib}.

(** [scipy.spatial.distance.cdist] on two 2-dimensional arrays. *)
Definition cdist (XA XB : list point) : list (list float) :=
  map (λ a, map (euclidean a) XB) XA.

(** [np.fill_diagonal(a, val)]: only the entries [(k, k)] that exist. *)
Definition fill_diagonal (a : list (list float)) (val : float) : list (list float) :=
  imap (λ k row, <[k := val]> row) a.

(** [np.where] on a boolean vector: the positions that hold [True]. *)
Definition where1 (row : list bool) : list nat :=
  filter (λ c, row !! c = Some true) (seq 0 (length row)).

(** [np.where] on a boolean matrix, its two index arrays zipped: the
    [(row, column)] positions that hold [True], in row-major order. *)
Definition np_where2 (m : list (list bool)) : list (nat * nat) :=
  concat (imap (λ r row, map (pair r) (where1 row)) m).

(** [np.bincount(x, minlength=minlength)] *)
Definition bincount (x : list nat) (minlength : nat) : list Z :=
  let size := match x with
              | [] => minlength
              | _ => Nat.max minlength (S (max_list x))
              end in
  map (λ k, Z.of_nat (length (filter (λ y, y = k) x))) (seq 0 size).

(** Indexing a sequence with a (possibly negative) integer. *)
Definition py_index {A} (l : list A) (k : Z) : res A :=
  let n := Z.of_nat (length l) in
  let pos := if 0 <=? k then k else n + k in
  if (0 <=? pos) && (pos <? n) then
    match l !! Z.to_nat pos with
    | Some x => Ok x
    | None => Raise IndexError
    end
  else Raise IndexError.

(** [a[idx]] for an integer index array [idx]. *)
Definition np_take {A} (a : list A) (idx : list Z) : res (list A) :=
  mapM (py_index a) idx.

(** [str(i)] for an integer. *)
Definition string_of_Z (z : Z) : string := NilZero.string_of_int (Z.to_int z).

(** ** Structures *)

(** An atom of a PLAMS molecule: coordinates, atomic number, and the entries
    of [Atom.properties] the engine reads or writes. *)
Record Atom : Type := mkAtom {
  coords : point;
  atnum : Z;
  residue_number : Z;          (* properties.pdb_info.ResidueNumber *)
  anchor : bool;               (* properties.anchor *)
  topology_label : option string  (* properties.topology *)
}.

(** A PLAMS molecule: the atom list and the [properties] entries the engine
    uses. *)
Record Molecule : Type := mkMolecule {
  atoms : list Atom;
  prop_indices : list Z        (* properties.indices *)
}.

(** [Molecule.as_array()] *)
Definition mol_as_array (m : Molecule) : list point := map coords (atoms m).

(** [Molecule.__getitem__] with an integer key (PLAMS numbers atoms from 1):
    the list position of the atom. *)
Definition mol_getitem (natoms : nat) (key : Z) : res nat :=
  if key =? 0 then Raise (MoleculeError "Numbering of atoms starts with 1")
  else
    let n := Z.of_nat natoms in
    let pos := if key <? 0 then n + key else key - 1 in
    if (0 <=? pos) && (pos <? n) then Ok (Z.to_nat pos) else Raise IndexError.

Definition set_topology (a : Atom) (top : string) : Atom :=
  mkAtom (coords a) (atnum a) (residue_number a) (anchor a) (Some top).

(** The state of a [MolDissociater] instance. *)
Record MolDissociater : Type := mkMolDissociater {
  mol : Molecule;
  _core_idx : list Z;
  ligand_count : Z;
  _max_dist : float;
  _topology : gmap Z string;
  _coords : list point;
  _partition_dict : gmap Z (list Z)
}.

Definition with_mol (self : MolDissociater) (m : Molecule) : MolDissociater :=
  mkMolDissociater m (_core_idx self) (ligand_count self) (_max_dist self)
                   (_topology self) (_coords self) (_partition_dict self).

Definition with_core_idx (self : MolDissociater) (i : list Z) : MolDissociater :=
  mkMolDissociater (mol self) i (ligand_count self) (_max_dist self)
                   (_topology self) (_coords self) (_partition_dict self).

(** ** Misc: [partition_mol]

    [ret[key]] is a list object and [list_append[key]] is the bound [append]
    method of that same object, so a call through [list_append] changes the
    list stored in [ret].  The interpreter state keeps the list objects in a
    [heap] (addressed by position) and the two dictionaries hold
    references. *)

Record partition_state : Type := mkPartitionState {
  heap : list (list Z);
  ret_refs : gmap Z nat;
  list_append : gmap Z nat
}.

(** [enumerate(iterable, start)] *)
Definition enumerate {A} (l : list A) (start : Z) : list (Z * A) :=
  zip (seqZ start (Z.of_nat (length l))) l.

(** One iteration of the loop of [partition_mol]. *)
Definition partition_step (func : Atom → Z) (st : partition_state)
    (i_at : Z * Atom) : partition_state :=
  let key := func i_at.2 in
  match list_append st !! key with
  | Some ref =>
      (* list_append[key](i) *)
      mkPartitionState (alter (λ l, l ++ [i_at.1]) ref (heap st))
                       (ret_refs st) (list_append st)
  | None =>
      (* except KeyError: ret[key] = [i]; list_append[key] = ret[key].append *)
      let ref := length (heap st) in
      mkPartitionState (heap st ++ [[i_at.1]])
                       (<[key := ref]> (ret_refs st))
                       (<[key := ref]> (list_append st))
  end.

Definition partition_loop (func : Atom → Z) (m : Molecule) : partition_state :=
  foldl (partition_step func) (mkPartitionState [] ∅ ∅) (enumerate (atoms m) 1).

(** The dictionary [ret] with its references read through the heap. *)
Definition read_dict (st : partition_state) : gmap Z (list Z) :=
  (λ ref, default [] (heap st !! ref)) <$> ret_refs st.

Definition partition_mol_of (key : option (Atom → Z)) (m : Molecule)
    : gmap Z (list Z) :=
  let func := match key with
              | Some f => f
              | None => residue_number
              end in
  read_dict (partition_loop func m).

Definition partition_mol (self : MolDissociater) (key : option (Atom → Z))
    : gmap Z (list Z) :=
  partition_mol_of key (mol self).

(** ** Construction *)

(** [MolDissociater.__init__].  [guess_core_core_dist] is the distance
    estimator of [nanoCAT.bde.guess_core_dist], taken as a parameter. *)
Definition __init__ (guess_core_core_dist : Molecule → Atom → float)
    (m : Molecule) (core_idx : pyindices) (lig_count : Z)
    (max_dist : option float) (topology : option (gmap Z string))
    : res MolDissociater :=
  ci ← core_idx_setter core_idx;
  i ← match ci with
      | Nd1 l => Ok l
      | Nd0 _ => Raise (AttributeError "ndmin")
      end;
  md ← match max_dist with
       | Some v => Ok v
       | None =>
           i0 ← py_index i 0;
           pos ← mol_getitem (length (atoms m)) (1 + i0);
           match atoms m !! pos with
           | Some a => Ok (guess_core_core_dist m a)
           | None => Raise IndexError
           end
       end;
  Ok (mkMolDissociater m i lig_count md (default ∅ topology)
                       (mol_as_array m) (partition_mol_of None m)).

(** ** Bulk filter: [remove_bulk] *)

(** The [numpy] module has [fill_diagonal] but no attribute [filldiagonal]:
    evaluating [np.filldiagonal] raises before anything is called. *)
Definition np_filldiagonal (a : list (list float)) (val : float)
    : res (list (list float)) :=
  Raise (AttributeError "filldiagonal").

(** Unpacking a tuple into two targets. *)
Definition unpack2 {A} (t : list A) : res (A * A) :=
  match t with
  | [a; b] => Ok (a, b)
  | [] | [_] => Raise (ValueError "not enough values to unpack (expected 2)")
  | _ => Raise (ValueError "too many values to unpack (expected 2)")
  end.

Definition psub (a b : point) : point :=
  let '(ax, ay, az) := a in
  let '(bx, by', bz) := b in
  ((ax - bx)%float, (ay - by')%float, (az - bz)%float).

Definition fsum (l : list float) : float := foldl PrimFloat.add 0%float l.

(** [np.average(pts, axis=0)]; the mean of no rows is [0 / 0], a NaN. *)
Definition average (pts : list point) : point :=
  let n := PrimFloat.of_uint63 (Uint63.of_Z (Z.of_nat (length pts))) in
  ((fsum (map (λ p, p.1.1) pts) / n)%float,
   (fsum (map (λ p, p.1.2) pts) / n)%float,
   (fsum (map (λ p, p.2) pts) / n)%float).

(** The loop that fills [vec]: one row per entry of [bincount], each the
    difference of [x[j]] and the mean of the next [step] rows of [y]. *)
Fixpoint bulk_vectors (x y : list point) (counts : list Z) (start : nat)
    : list point :=
  match counts, x with
  | step :: counts', xj :: x' =>
      let k := take (Z.to_nat step) (drop start y) in
      psub xj (average k)
        :: bulk_vectors x' y counts' (start + Z.to_nat step)
  | _, _ => []
  end.

(** [np.linalg.norm(vec, axis=1)] followed by [> max_vec_len]. *)
Definition longer_than (max_vec_len : float) (v : point) : bool :=
  let '(vx, vy, vz) := v in
  (max_vec_len <? linalg_norm [vx; vy; vz])%float.

Definition remove_bulk (self : MolDissociater) (max_vec_len : float)
    : res MolDissociater :=
  let xyz := _coords self in
  let i := _core_idx self in
  let max_dist := _max_dist self in
  (* Construct the distance matrix and fill the diagonal *)
  xi ← np_take xyz i;
  dist ← np_filldiagonal (cdist xi xi) max_dist;
  let xy := np_where2 (map (map (λ d, (d <=? max_dist)%float)) dist) in
  let bincount := bincount xy.*1 (length i) in
  (* Slice xyz, creating arrays of reference atoms and neighbouring atoms *)
  x ← np_take xyz i;
  ixy ← np_take i (Z.of_nat <$> xy.*2);
  y ← np_take xyz ixy;
  let vec := bulk_vectors x y bincount 0 in
  (* np.where on a 1-dimensional array returns a 1-tuple *)
  accepted ← unpack2 [where1 (map (longer_than max_vec_len) vec)];
  kept ← np_take i (Z.of_nat <$> accepted.1);
  ci ← core_idx_setter (PySeq kept);
  match ci with
  | Nd1 l => Ok (with_core_idx self l)
  | Nd0 _ => Raise (AttributeError "ndmin")
  end.

(** ** Topology assignment *)

(** [_get_topology]: [topology.get(i, f'{i}_neighbours')] for each count. *)
Definition _get_topology (self : MolDissociater) (neighbour_count : list Z)
    : list string :=
  let topology := _topology self in
  map (λ i, default (string_of_Z i +:+ "_neighbours") (topology !! i))
      neighbour_count.

(** [mol[j].properties.topology = top] *)
Definition write_topology (m : Molecule) (j : Z) (top : string) : res Molecule :=
  pos ← mol_getitem (length (atoms m)) j;
  Ok (mkMolecule (alter (λ a, set_topology a top) pos (atoms m)) (prop_indices m)).

(** A [for] loop whose body may raise. *)
Fixpoint foldM {A S} (f : S → A → res S) (s : S) (l : list A) : res S :=
  match l with
  | [] => Ok s
  | x :: l' => s' ← f s x; foldM f s' l'
  end.

Definition assign_topology (self : MolDissociater) : res MolDissociater :=
  let m := mol self in
  let xyz := _coords self in
  let i := _core_idx self in
  let max_dist := _max_dist self in
  (* Create a distance matrix and fill its diagonal *)
  xi ← np_take xyz i;
  let dist := fill_diagonal (cdist xi xi) max_dist in
  (* Find all valid core atoms and create a topology indicator *)
  let valid_core := (np_where2 (map (map (λ d, (d <=? max_dist)%float)) dist)).*1 in
  let neighbour_count :=
    map (λ c, wrap64 (c - 1)) (bincount valid_core (length i)) in
  let topology := _get_topology self neighbour_count in
  m' ← foldM (λ m0 j_top, write_topology m0 (1 + j_top.1) j_top.2)
             m (zip i topology);
  Ok (with_mol self m').

(** ** Core/ligand pair identification *)

(** [itertools.combinations(l, r)] for [r >= 0]: the [r]-element
    subsequences of [l] in lexicographic order of their positions. *)
Fixpoint combinations {A} (l : list A) (r : nat) : list (list A) :=
  match r with
  | O => [[]]
  | S r' =>
      match l with
      | [] => []
      | x :: l' => map (cons x) (combinations l' r') ++ combinations l' r
      end
  end.

Definition py_combinations {A} (l : list A) (r : Z) : res (list (list A)) :=
  if r <? 0 then Raise (ValueError "r must be non-negative")
  else Ok (combinations l (Z.to_nat r)).

(** [row[idx]] for positions that are in range. *)
Definition gather {A} (d : A) (row : list A) (idx : list nat) : list A :=
  map (λ p, nth p row d) idx.

(** [iter_repeat(iterable, times)] *)
Definition iter_repeat {A} (iterable : list A) (times : Z) : list A :=
  concat (map (replicate (Z.to_nat times)) iterable).

(** [np.hstack] of a column and a 2-dimensional array.  (Recent NumPy
    versions append the two sizes to the message.) *)
Definition hstack (col : list Z) (a : list (list nat)) : res (list (list Z)) :=
  if decide (length col = length a)
  then Ok (zip_with (λ c row, c :: (Z.of_nat <$> row)) col a)
  else Raise (ValueError "all the input array dimensions except for the concatenation axis must match exactly").

(** The branch [n_pairs > 1] of [get_pairs_closest], from the distance
    matrix on; [ncols] is the number of columns of [dist]. *)
Definition closest_many (i : list Z) (dist : list (list float)) (ncols : nat)
    (n n_pairs : Z) : res (list (list Z)) :=
  (* Shrink the distance matrix *)
  let width := Z.to_nat (1 + n_pairs) in
  let idx_small := map (λ row, take width (np_argsort row)) dist in
  let dist_smallest := zip_with (gather 0%float) dist idx_small in
  (* Create an array of combinations *)
  combs ← py_combinations (seq 0 width) n;
  combine ← (if n =? 0
             then Raise (ValueError "cannot reshape array of size 0 into shape (0)")
             else Ok combs);
  (* Accept the n_pairs entries (per row) based on the norm *)
  if negb (forallb (forallb (λ c, c <? Nat.min width ncols)%nat) combine)
  then Raise IndexError
  else
    let norms :=
      map (λ row, map (λ comb, linalg_norm (gather 0%float row comb)) combine)
          dist_smallest in
    let idx_accept :=
      map (λ nrow, gather [] combine (take (Z.to_nat n_pairs) (np_argsort nrow)))
          norms in
    (* Create an array with all core/ligand pairs *)
    let lig_idx := zip_with (λ k l, map (gather 0%nat k) l) idx_small idx_accept in
    match lig_idx with
    | [] => Raise (ValueError "cannot reshape array of size 0 into shape (0)")
    | _ => hstack (iter_repeat i n_pairs) (concat lig_idx)
    end.

Definition get_pairs_closest (self : MolDissociater) (lig_idx : pyindices)
    (n_pairs : Z) : res (list (list Z)) :=
  if n_pairs <=? 0
  then Raise (ValueError "The 'n_pairs' parameter should be larger than 0")
  else
    (* Extract instance variables *)
    let xyz := _coords self in
    let i := _core_idx self in
    lig ← as_array lig_idx 0;
    let n := ligand_count self in
    xi ← np_take xyz i;
    match isub1 lig with
    | Nd0 z =>
        _ ← py_index xyz z;
        Raise (ValueError "XB must be a 2-dimensional array.")
    | Nd1 j =>
        xj ← np_take xyz j;
        let dist := cdist xi xj in
        if n_pairs =? 1 then
          let lig_idx := map (λ row, take 2 (np_argsort row)) dist in
          hstack i lig_idx
        else closest_many i dist (length j) n n_pairs
    end.

(** [itertools.groupby]: maximal runs of consecutive elements with equal
    keys. *)
Fixpoint groupby {A} (key : A → nat) (l : list A) : list (nat * list A) :=
  match l with
  | [] => []
  | x :: l' =>
      match groupby key l' with
      | (k, g) :: gs =>
          if decide (key x = k) then (k, x :: g) :: gs
          else (key x, [x]) :: (k, g) :: gs
      | [] => [(key x, [x])]
      end
  end.

(** A [dict] in insertion order: assigning to a key that is present keeps
    its place. *)
Fixpoint dict_set {V} (d : list (nat * V)) (k : nat) (v : V) : list (nat * V) :=
  match d with
  | [] => [(k, v)]
  | kv :: d' => if decide (k = kv.1) then (k, v) :: d' else kv :: dict_set d' k v
  end.

Definition dict_of_items {V} (items : list (nat * V)) : list (nat * V) :=
  foldl (λ d kv, dict_set d kv.1 kv.2) [] items.

(** A row of the list [cor_lig_pairs] of [get_pairs_distance]: the key [k]
    followed by [n] elements of [pair_mapping[k]], each of them a
    [(row, column)] tuple of the distance matrix. *)
Definition distance_record : Type := nat * list (nat * nat).

(** What [np.array(cor_lig_pairs)] can be: the empty [float64] array of
    shape [(0,)] that an empty list gives, a 2-dimensional integer array, or
    a 2-dimensional array of Python objects (integers and tuples). *)
Inductive pair_array : Type :=
| EmptyFloatArray
| IntArray (rows : list (list Z))
| ObjectArray (rows : list distance_record).

(** [np.array(cor_lig_pairs)].  With [n = 0] every row is the 1-tuple
    [(k,)].  With [n > 0] a row holds the integer [k] and [n] tuples: the
    rows are ragged at depth 2.  (The message of the [ValueError] goes on
    with the shape that NumPy detected.) *)
Definition np_array_records (n : Z) (cor_lig_pairs : list distance_record)
    : res pair_array :=
  match cor_lig_pairs with
  | [] => Ok EmptyFloatArray
  | _ =>
      if n =? 0 then Ok (IntArray (map (λ rec, [Z.of_nat rec.1]) cor_lig_pairs))
      else if ragged_as_object then Ok (ObjectArray cor_lig_pairs)
      else Raise (ValueError "setting an array element with a sequence.")
  end.

Definition get_pairs_distance (self : MolDissociater) (lig_idx : pyindices)
    (max_dist : float) : res pair_array :=
  (* Extract instance variables *)
  let xyz := _coords self in
  let i := _core_idx self in
  lig ← as_array lig_idx 0;
  let n := ligand_count self in
  xi ← np_take xyz i;
  match isub1 lig with
  | Nd0 z =>
      _ ← py_index xyz z;
      Raise (ValueError "XB must be a 2-dimensional array.")
  | Nd1 j =>
      xj ← np_take xyz j;
      let dist := fill_diagonal (cdist xi xj) max_dist in
      (* Construct a mapping with core atoms as keys *)
      let idx := np_where2 (map (map (λ d, (d <? max_dist)%float)) dist) in
      let pair_mapping := dict_of_items (groupby fst idx) in
      (* All valid core/ligand pairs *)
      groups ← mapM (λ kv, if n <=? Z.of_nat (length kv.2)
                            then n_tups ← py_combinations kv.2 n;
                                 Ok (map (pair kv.1) n_tups)
                            else Ok [])
                     pair_mapping;
      np_array_records n (concat groups)
  end.

(** ** Combination expander *)

(** The Python objects that occur as the components of a combination: an
    integer, a list of integers (as core component also a tuple, which is
    subscripted and iterated alike), or the [itertools.chain] object that
    [chain.from_iterable] builds from a list of integers. *)
Inductive pyobj : Type :=
| PInt (z : Z)
| PSeq (l : list Z)
| PChain (l : list Z).

(** An element of the iterator returned by [get_combinations]: the core
    component and the list of ligand components. *)
Definition combination : Type := pyobj * list pyobj.

(** [np.intersect1d(a, b)] on flattened arguments: the sorted distinct
    common values. *)
Definition intersect1d (a b : list Z) : list Z :=
  merge_sort Z.le (remove_dups (filter (λ x, x ∈ b) a)).

(** [np.setdiff1d(a, b)] *)
Definition setdiff1d (a b : list Z) : list Z :=
  merge_sort Z.le (remove_dups (filter (λ x, x ∉ b) a)).

(** The exception built by [MolDissociater._ValueError]: the [ValueError]
    whose message quotes [smiles] and [str(diff)]; [AbsentAtoms] holds these
    two texts. *)
Definition _ValueError (core intersect : list Z) (smiles : string) : pyexc :=
  let diff := setdiff1d core intersect in
  AbsentAtoms smiles (array_str (merge_sort Z.le diff)).

(** [_core_neighbours]; [GetSubstructMatches] is the substructure matcher
    (RDKit), taken as a parameter: the match tuples of the molecule for a
    query.  The elements of the returned iterator are integers.

    [np.intersect1d] is called without [return_indices=True] and so returns
    one array; the three-target assignment unpacks that array itself. *)
Definition _core_neighbours
    (GetSubstructMatches : Molecule → string → list (list Z))
    (self : MolDissociater) (smiles : option string) : res (list Z) :=
  let core := _core_idx self in
  match smiles with
  | None => Ok (map (λ c, wrap64 (1 + c)) core)
  | Some smiles =>
      (* Find substructure matches *)
      let matches := GetSubstructMatches (mol self) smiles in
      (* Ensure that all core atoms are part of the substructure matches *)
      match intersect1d core (concat matches) with
      | [intersect; _; _idx] =>
          if forallb (λ c, negb (intersect =? c)) core
          then Raise (_ValueError core [intersect] smiles)
          else
            (* Return only the matches which contain a core atom *)
            width ← match matches with
                    | m0 :: _ => Ok (Z.of_nat (length m0))
                    | [] => Raise IndexError
                    end;
            idx ← py_index matches (_idx `div` width);
            Ok (map (λ z, wrap64 (z + 1)) idx)
      | [] | [_] | [_; _] =>
          Raise (ValueError "not enough values to unpack (expected 3)")
      | _ => Raise (ValueError "too many values to unpack (expected 3)")
      end
  end.

(** [get_combinations]: the outer result is what the call itself does, the
    list holds what each [next()] on the returned generator does; a
    generator that has raised is finished, so the list ends at the first
    exception.  [_get_value] looks every ligand up in the partition
    dictionary and wraps the list it finds in a [chain] object. *)
Definition _get_value (partition_dict : gmap Z (list Z)) (core : Z)
    (ligands : list Z) : res combination :=
  groups ← mapM (λ lig, match partition_dict !! lig with
                        | Some l => Ok (PChain l)
                        | None => Raise (KeyError lig)
                        end) ligands;
  Ok (PInt core, groups).

Fixpoint until_raise {A} (steps : list (res A)) : list (res A) :=
  match steps with
  | [] => []
  | Ok a :: steps' => Ok a :: until_raise steps'
  | Raise e :: _ => [Raise e]
  end.

Definition get_combinations
    (GetSubstructMatches : Molecule → string → list (list Z))
    (self : MolDissociater) (cor_lig_pairs : list (list Z))
    (core_smiles : option string) : res (list (res combination)) :=
  (* Extract instance variables *)
  let partition_dict := _partition_dict self in
  (* Switch from 0-based to 1-based indices *)
  let cor_lig_pairs1 := map (map (λ z, wrap64 (z + 1))) cor_lig_pairs in
  (* Fill the to-be returned list *)
  let ligand_list := map (drop 1) cor_lig_pairs1 in
  core_iterator ← _core_neighbours GetSubstructMatches self core_smiles;
  Ok (until_raise (zip_with (_get_value partition_dict) core_iterator ligand_list)).

(** ** Molecule dissociation *)

(** [_get_new_indices]: [partition_dict.values()] is a view, not an
    iterator, and [next] rejects it. *)
Fixpoint del_last (l : list Z) (times : nat) : res (list Z) :=
  match times with
  | O => Ok l
  | S t =>
      match l with
      | [] => Raise IndexError
      | _ => del_last (removelast l) t
      end
  end.

Definition _get_new_indices (self : MolDissociater) : res (list Z) :=
  let n := ligand_count self in
  match prop_indices (mol self) with
  | [] => Ok []
  | indices =>
      (* Delete the indices of the last n ligands *)
      ret ← del_last indices (Z.to_nat n);
      Raise (TypeError "'dict_values' object is not an iterator")
  end.

(** [obj[0]] *)
Definition subscript0 (obj : pyobj) : res Z :=
  match obj with
  | PInt _ => Raise (TypeError "'int' object is not subscriptable")
  | PSeq l => py_index l 0
  | PChain _ => Raise (TypeError "'itertools.chain' object is not subscriptable")
  end.

(** [for i in obj] *)
Definition iterate (obj : pyobj) : res (list Z) :=
  match obj with
  | PInt _ => Raise (TypeError "'int' object is not iterable")
  | PSeq l => Ok l
  | PChain [] => Ok []
  | PChain (_ :: _) => Raise (TypeError "'int' object is not iterable")
  end.

(** [str] of the empty [Settings] that PLAMS creates when a key that is
    not set is read, as [properties.topology] on an atom without label. *)
Definition empty_settings : string := "<empty Settings>".

(** [mol[key]] for an arbitrary key: PLAMS accepts an integer (and a
    2-tuple, which names a bond); a list or any other object is rejected. *)
Definition mol_getitem_obj (natoms : nat) (key : pyobj) : res nat :=
  match key with
  | PInt z => mol_getitem natoms z
  | _ => Raise (MoleculeError "Molecule: invalid argument inside []")
  end.

(** [Molecule.delete_atom] on each atom of [targets] in turn.  Atoms are
    told apart by identity: every atom of the copy carries the position it
    had when the copy was made, and an atom deleted before no longer belongs
    to the molecule. *)
Fixpoint delete_atoms (tagged : list (nat * Atom)) (targets : list nat)
    : res (list (nat * Atom)) :=
  match targets with
  | [] => Ok tagged
  | t :: ts =>
      if decide (t ∈ tagged.*1)
      then delete_atoms (filter (λ p, p.1 ≠ t) tagged) ts
      else Raise (MoleculeError "delete_atom: passed atom should belong to the molecule")
  end.

(** A yielded molecule: the remaining atoms and the entries written to its
    [properties]. *)
Record Dissociated : Type := mkDissociated {
  new_atoms : list Atom;
  s_indices : list Z;
  s_core_topology : string;
  s_lig_residue : list Z;
  s_df_index : string
}.

Definition join_space (l : list string) : string :=
  match l with
  | [] => ""
  | s :: l' => foldl (λ acc t, acc +:+ " " +:+ t) s l'
  end.

(** The body of the [for] loop of [__call__] for one combination. *)
Definition dissociate_one (self : MolDissociater) (indices : list Z)
    (comb : combination) : res Dissociated :=
  let '(core_idx, lig_idx) := comb in
  (* Create a new molecule *)
  let mol_new := atoms (mol self) in
  let natoms := length mol_new in
  (* Create a list of to-be removed atoms *)
  c0 ← subscript0 core_idx;
  core ← mol_getitem natoms c0;
  core_items ← iterate core_idx;
  delete_core ← mapM (mol_getitem natoms) core_items;
  delete_lig ← mapM (mol_getitem_obj natoms) lig_idx;
  let delete_at := delete_core ++ delete_lig in
  (* Update the Molecule.properties attribute of the new molecule *)
  let top := default empty_settings (a ← mol_new !! core; topology_label a) in
  let core_topology := top +:+ "_" +:+ string_of_Z c0 in
  residues ← mapM (λ i, i0 ← subscript0 i;
                        pos ← mol_getitem natoms i0;
                        Ok (default 0 (residue_number <$> mol_new !! pos)))
                  lig_idx;
  let lig_residue := merge_sort Z.le residues in
  let df_index := core_topology +:+ join_space (map string_of_Z lig_residue) in
  remaining ← delete_atoms (imap pair mol_new) delete_at;
  Ok (mkDissociated remaining.*2 indices core_topology lig_residue df_index).

(** The generator body after [indices] is known: one entry per [next()],
    ending at the first exception. *)
Fixpoint dissociate_loop (self : MolDissociater) (indices : list Z)
    (combinations : list (res combination)) : list (res Dissociated) :=
  match combinations with
  | [] => []
  | Raise e :: _ => [Raise e]
  | Ok comb :: rest =>
      match dissociate_one self indices comb with
      | Ok m => Ok m :: dissociate_loop self indices rest
      | Raise e => [Raise e]
      end
  end.

(** [MolDissociater.__call__] *)
Definition __call__ (self : MolDissociater) (combinations : list (res combination))
    : list (res Dissociated) :=
  match _get_new_indices self with
  | Raise e => [Raise e]
  | Ok indices => dissociate_loop self indices combinations
  end.

(** ** Reference notions used to state the properties *)

(** The indices that an enumerated atom list gives to the atoms whose key
    is [k], in the order of the enumeration. *)
Definition keyed (func : Atom → Z) (k : Z) (es : list (Z * Atom)) : list Z :=
  (filter (λ ia, func ia.2 = k) es).*1.

Definition origin : point := pt 0 0 0.

(** The position of the atom with 0-based index [z] in a coordinate array. *)
Definition point_of (xyz : list point) (z : Z) : point := nth (Z.to_nat z) xyz origin.

(** The positions of the core atoms, in the order of [core_idx]. *)
Definition core_points (self : MolDissociater) : list point :=
  map (point_of (_coords self)) (_core_idx self).

(** "The distance between [a] and [b] is at most [max_dist]" and "is
    smaller than [max_dist]". *)
Definition within (max_dist : float) (a b : point) : bool :=
  (euclidean a b <=? max_dist)%float.

Definition closer_than (max_dist : float) (a b : point) : bool :=
  (euclidean a b <? max_dist)%float.

(** The positions [c] of [pts], other than [r], whose point is related to
    the point [a] by [P]. *)
Definition others (P : point → point → bool) (a : point) (r : nat)
    (pts : list point) : list nat :=
  filter (λ c, c ≠ r ∧ P a (nth c pts origin) = true) (seq 0 (length pts)).

(** The number of the other core atoms related by [P] to the core atom at
    position [r] of [core_idx]. *)
Definition neighbours (P : point → point → bool) (self : MolDissociater)
    (r : nat) : Z :=
  Z.of_nat (length (others P (nth r (core_points self) origin) r (core_points self))).

(** The labels that [assign_topology] computes, in the order of
    [core_idx]. *)
Definition computed_topology (self : MolDissociater) : list string :=
  let xi := core_points self in
  let max_dist := _max_dist self in
  let dist := fill_diagonal (cdist xi xi) max_dist in
  let valid_core := (np_where2 (map (map (λ d, (d <=? max_dist)%float)) dist)).*1 in
  _get_topology self
    (map (λ c, wrap64 (c - 1)) (bincount valid_core (length (_core_idx self)))).

(** The label for a neighbour count: the entry of the topology mapping when
    the count is a key, ["<count>_neighbours"] otherwise. *)
Definition topology_of (topology : gmap Z string) (count : Z) : string :=
  match topology !! count with
  | Some label => label
  | None => string_of_Z count +:+ "_neighbours"
  end.

(** Two atoms at distance 3 of each other, both core atoms, and a threshold
    of exactly 3. *)
Definition two_atoms : Molecule :=
  mkMolecule [mkAtom (pt 0 0 0) 48 1 false None;
              mkAtom (pt 3 0 0) 48 1 false None] [].

Definition two_atoms_engine : MolDissociater :=
  mkMolDissociater two_atoms [0; 1] 1 3%float ∅ (mol_as_array two_atoms)
                   (partition_mol_of None two_atoms).

(** Row-major [(row, column)] positions, given row by row. *)
Definition flatten_blocks (blocks : list (nat * list nat)) : list (nat * nat) :=
  concat (map (λ b, map (pair b.1) b.2) blocks).

(** What holds between two iterations of the loop of [partition_mol], [es]
    being the part of the enumeration that has been consumed. *)
Definition partition_inv (func : Atom → Z) (es : list (Z * Atom))
    (st : partition_state) : Prop :=
  list_append st = ret_refs st
  ∧ (∀ k ref, ret_refs st !! k = Some ref →
       heap st !! ref = Some (keyed func k es) ∧ keyed func k es ≠ [])
  ∧ (∀ k, ret_refs st !! k = None → keyed func k es = [])
  ∧ (∀ k1 k2 ref, ret_refs st !! k1 = Some ref →
       ret_refs st !! k2 = Some ref → k1 = k2).

(** The distance, as [cdist] returns it, between the atom with 0-based
    index [c] and the ligand anchor at position [p] of the list [l] of
    1-based anchor indices. *)
Definition anchor_dist (self : MolDissociater) (l : list Z) (c : Z) (p : nat)
    : float :=
  euclidean (point_of (_coords self) c) (point_of (_coords self) (nth p l 1 - 1)).



(** Four atoms on a line: a core atom at 0 and ligand anchors at 5, 1 and 2
    (atoms 2, 3 and 4). *)
Definition line_mol : Molecule :=
  mkMolecule [mkAtom (pt 0 0 0) 48 1 false None;
              mkAtom (pt 5 0 0) 8 2 true None;
              mkAtom (pt 1 0 0) 8 3 true None;
              mkAtom (pt 2 0 0) 8 4 true None] [].

Definition line_engine : MolDissociater :=
  mkMolDissociater line_mol [0] 2 10%float ∅ (mol_as_array line_mol)
                   (partition_mol_of None line_mol).

(** The binomial coefficient. *)
Fixpoint choose (n k : nat) : nat :=
  match k with
  | O => 1
  | S k' =>
      match n with
      | O => 0
      | S n' => choose n' k' + choose n' k
      end
  end.

(** Six atoms on a line: a core atom at 0 and ligand anchors at 1, 2, 3, 4
    and 5 (atoms 2 to 6); the engine over it, for a given [ligand_count]. *)
Definition row_mol : Molecule :=
  mkMolecule [mkAtom (pt 0 0 0) 48 1 false None;
              mkAtom (pt 1 0 0) 8 2 true None;
              mkAtom (pt 2 0 0) 8 3 true None;
              mkAtom (pt 3 0 0) 8 4 true None;
              mkAtom (pt 4 0 0) 8 5 true None;
              mkAtom (pt 5 0 0) 8 6 true None] [].

Definition row_engine (lig_count : Z) : MolDissociater :=
  mkMolDissociater row_mol [0] lig_count 10%float ∅ (mol_as_array row_mol)
                   (partition_mol_of None row_mol).

(** The line structure with every atom a core atom. *)
Definition line_all_core : MolDissociater :=
  mkMolDissociater line_mol [0; 1; 2; 3] 1 10%float ∅ (mol_as_array line_mol)
                   (partition_mol_of None line_mol).

(** A matcher that finds no match, for calls without a query. *)
Definition no_matches : Molecule → string → list (list Z) := λ _ _, [].

(** ** The workflow: [start_dissociate] *)

(** The 1-based indices of the atoms of a molecule that satisfy [P]:
    [[i for i, at in enumerate(mol, 1) if P(at)]]. *)
Definition indices_where (P : Atom → bool) (m : Molecule) : list Z :=
  (filter (λ i_at, P i_at.2 = true) (enumerate (atoms m) 1)).*1.

(** [cor_lig_pairs[:, 1:] += 1] *)
Definition shift_ligands (cor_lig_pairs : list (list Z)) : list (list Z) :=
  map (λ row, take 1 row ++ map (λ z, wrap64 (z + 1)) (drop 1 row)) cor_lig_pairs.

(** [start_dissociate].  Parameters: [to_atnum] (of [CAT.mol_utils]), the
    distance estimator and the substructure matcher, and
    [pairs_without_cutoff], which stands for the array that
    [get_pairs_distance(lig_idx, max_dist=None)] gives back: that call is
    made when [max_lig_dist] is [None], and what NumPy does with a distance
    matrix filled with and compared to [None] is not modelled.  The keyword
    [core_atom] is an atomic number or a symbol. *)
Definition start_dissociate
    (to_atnum : Z + string → res Z)
    (guess_core_core_dist : Molecule → Atom → float)
    (GetSubstructMatches : Molecule → string → list (list Z))
    (pairs_without_cutoff : MolDissociater → pyindices → res (list (list Z)))
    (m : Molecule) (lig_count lig_pairs : Z)
    (core_idx : option pyindices) (core_atom : option (Z + string))
    (core_smiles : option string) (max_core_dist max_lig_dist : option float)
    (topology : option (gmap Z string)) : res (list (res Dissociated)) :=
  match core_atom, core_idx with
  | None, None =>
      Raise (TypeError "The 'core_atom' and 'core_idx' parameters cannot be both 'None'")
  | _, _ =>
      (* Set core_idx to all atoms within mol matching core_atom *)
      '(bulk, ci) ← (match core_atom, core_idx with
              | Some ca, _ =>
                  a ← to_atnum ca;
                  Ok (negb (a =? 0), PySeq (indices_where (λ at_, atnum at_ =? a) m))
              | None, Some ci0 => Ok (false, ci0)
              | None, None => Raise (TypeError "unreachable")
              end : res (bool * pyindices));
      (* Construct a MolDissociater instance *)
      dissociate ← __init__ guess_core_core_dist m ci lig_count max_core_dist topology;
      dissociate ← (if bulk : bool then remove_bulk dissociate 0.5%float else Ok dissociate);
      dissociate ← assign_topology dissociate;
      (* Construct an array with all core/ligand pairs *)
      let lig_idx := PyIterator (indices_where anchor (mol dissociate)) in
      cor_lig_pairs ← match max_lig_dist with
                      | Some _ => get_pairs_closest dissociate lig_idx lig_pairs
                      | None => pairs_without_cutoff dissociate lig_idx
                      end;
      (* Start with the second residue instead of the first *)
      let cor_lig_pairs := shift_ligands cor_lig_pairs in
      (* Dissociate the ligands *)
      cor_lig_combinations ←
        get_combinations GetSubstructMatches dissociate cor_lig_pairs core_smiles;
      Ok (__call__ dissociate cor_lig_combinations)
  end.

(** ** [mark_substructure]

    The function writes [properties.smiles_partition] of the atoms
    [mol.atoms[j]]; the values of that property are kept beside the atoms,
    one per atom, [None] where it is not set. *)

(** [atoms[j].properties.smiles_partition = i] on the list of property
    values; [j] indexes a Python list. *)
Definition set_partition (marks : list (option nat)) (j : Z) (i : nat)
    : res (list (option nat)) :=
  let n := Z.of_nat (length marks) in
  let pos := if 0 <=? j then j else n + j in
  if (0 <=? pos) && (pos <? n)
  then Ok (<[Z.to_nat pos := Some i]> marks)
  else Raise IndexError.

Definition mark_substructure
    (GetSubstructMatches : Molecule → string → list (list Z))
    (m : Molecule) (smiles : string) (marks : list (option nat))
    : res (list (option nat)) :=
  let matches := GetSubstructMatches m smiles in
  foldM (λ marks i_tup, foldM (λ marks j, set_partition marks j i_tup.1) marks i_tup.2)
        marks (imap pair matches).

(** ** Further reference notions *)

(** The integers of an index argument and of an array, in order. *)
Definition values_of (v : pyindices) : list Z :=
  match v with
  | PyInt z => [z]
  | PySeq l => l
  | PyIterator l => l
  end.

Definition nd_values (a : ndarray) : list Z :=
  match a with
  | Nd0 z => [z]
  | Nd1 l => l
  end.

(** Two atoms that differ at most in their topology label. *)
Definition same_but_label (a a' : Atom) : Prop :=
  coords a' = coords a ∧ atnum a' = atnum a
  ∧ residue_number a' = residue_number a ∧ anchor a' = anchor a.

(** The two-atom engine after [assign_topology]. *)
Definition two_atoms_labelled : MolDissociater :=
  with_mol two_atoms_engine
    (mkMolecule [mkAtom (pt 0 0 0) 48 1 false (Some "1_neighbours");
                 mkAtom (pt 3 0 0) 48 1 false (Some "1_neighbours")] []).

(** The line structure with the index 0 among the 1-based core indices
    [[0; 2]]: the setter stores it as [-1]. *)
Definition line_zero_core : MolDissociater :=
  mkMolDissociater line_mol [-1; 1] 1 10%float ∅ (mol_as_array line_mol)
                   (partition_mol_of None line_mol).


(** What a generator of [__call__] does when it yields no molecule: it is
    exhausted at once, or its first step raises. *)
Definition yields_nothing (gen : list (res Dissociated)) : Prop :=
  gen = [] ∨ ∃ e, gen = [Raise e].

(** A [to_atnum] for the examples: an atomic number is returned as it is,
    and the only symbol known is ["Cd"]. *)
Definition example_to_atnum (x : Z + string) : res Z :=
  match x with
  | inl z => Ok z
  | inr s => if String.eqb s "Cd" then Ok 48 else Raise (KeyError 0)
  end.

(** Reading a decimal numeral back. *)
Definition Z_of_string (s : string) : option Z :=
  Z.of_int <$> NilZero.int_of_string s.

End Engine.

(** ** The libraries of the examples

    One [ArrayLib], on which the examples are evaluated: distances and
    norms are computed in binary64, left to right; sorting is stable; an
    array is printed on one line, elided beyond six elements; ragged input
    to [np.array] raises (NumPy 1.24 and later). *)

Section Argsort.
Context {A : Type} (leb : A → A → bool).

(** Insert a [(key, position)] pair in front of the first entry whose key
    is not smaller. *)
Fixpoint insert_sorted (x : A * nat) (l : list (A * nat)) : list (A * nat) :=
  match l with
  | [] => [x]
  | y :: l' => if leb x.1 y.1 then x :: y :: l' else y :: insert_sorted x l'
  end.

Definition sort_pairs (l : list (A * nat)) : list (A * nat) :=
  foldr insert_sorted [] l.

(** One way to sort positions by their keys: a stable insertion sort.  It
    is the [np_argsort] of the instance [binary64], on which the examples
    are evaluated. *)
Definition stable_argsort (keys : list A) : list nat :=
  (sort_pairs (zip keys (seq 0 (length keys)))).*2.
End Argsort.

Definition binary64_euclidean (a b : point) : float :=
  let '(ax, ay, az) := a in
  let '(bx, by', bz) := b in
  PrimFloat.sqrt ((ax - bx) * (ax - bx) + (ay - by') * (ay - by')
                  + (az - bz) * (az - bz))%float.

Definition binary64_norm (v : list float) : float :=
  PrimFloat.sqrt (foldl (λ acc x, (acc + x * x)%float) 0%float v).

Definition pad_left (width : nat) (s : string) : string :=
  String.concat "" (replicate (width - String.length s) " ") +:+ s.

Definition int_array_str (a : list Z) : string :=
  let elided := (6 <? length a)%nat in
  let head := if elided then take 3 a else a in
  let tail := if elided then drop (length a - 3) a else [] in
  let width := max_list (map (λ z, String.length (string_of_Z z)) (head ++ tail)) in
  let cells l := String.concat " " (map (λ z, pad_left width (string_of_Z z)) l) in
  "[" +:+ cells head +:+ (if elided then " ... " +:+ cells tail else "") +:+ "]".

#[global] Instance binary64 : ArrayLib.
Proof.
  refine {| euclidean := binary64_euclidean;
            linalg_norm := binary64_norm;
            np_argsort := stable_argsort PrimFloat.leb;
            np_argsort_perm := _;
            array_str := int_array_str;
            ragged_as_object := false |}.
  intros keys. unfold stable_argsort.
  assert (Hins : ∀ (x : float * nat) l, insert_sorted PrimFloat.leb x l ≡ₚ x :: l).
  { intros x l. induction l as [|y l IH]; simpl; [reflexivity|].
    destruct (PrimFloat.leb x.1 y.1); [reflexivity|].
    rewrite IH. apply Permutation_swap. }
  assert (Hsort : ∀ l : list (float * nat), sort_pairs PrimFloat.leb l ≡ₚ l).
  { intros l. induction l as [|x l IH]; simpl; [reflexivity|].
    rewrite Hins. by rewrite IH. }
  rewrite Hsort, snd_zip by (rewrite length_seq; lia). reflexivity.
Defined.

(** * Properties *)

(** One step of a call: the bind of a value that is known. *)
Ltac py_step := cbn [mbind res_bind Py.bind].
Ltac py_step_in H := cbn [mbind res_bind Py.bind] in H.

(** ** The engines used as examples are built by the constructor *)

Lemma two_atoms_engine_init guess :
  __init__ guess two_atoms (PySeq [1; 2]) 1 (Some 3%float) None = Ok two_atoms_engine.
Proof. reflexivity. Qed.

Lemma line_engine_init guess :
  __init__ guess line_mol (PyIterator [1]) 2 (Some 10%float) None = Ok line_engine.
Proof. reflexivity. Qed.

Lemma line_all_core_init guess :
  __init__ guess line_mol (PySeq [4; 2; 3; 1]) 1 (Some 10%float) None = Ok line_all_core.
Proof. reflexivity. Qed.

Lemma row_engine_init guess lig_count :
  __init__ guess row_mol (PySeq [1]) lig_count (Some 10%float) None = Ok (row_engine lig_count).
Proof. reflexivity. Qed.

(** ** Index coercion *)

Lemma wrap64_id z : int64_min ≤ z ≤ int64_max → wrap64 z = z.
Proof.
  unfold wrap64, int64_min, int64_max. intros Hz.
  rewrite Z.mod_small; lia.
Qed.

Lemma in_int64_spec z : in_int64 z = true ↔ int64_min ≤ z ≤ int64_max.
Proof. unfold in_int64. rewrite andb_true_iff, !Z.leb_le. tauto. Qed.

Lemma as_array_list value l :
  value = PySeq l ∨ value = PyIterator l →
  forallb in_int64 l = true →
  as_array value 1 = Ok (Nd1 l).
Proof.
  intros [-> | ->] Hl; unfold as_array, np_int_array; rewrite Hl; reflexivity.
Qed.

(** A single integer never makes it through [as_array(..., ndmin=1)]. *)
Lemma as_array_single_int z : is_ok (as_array (PyInt z) 1) = false.
Proof. unfold as_array. destruct (in_int64 z); reflexivity. Qed.

(** C6 (as stated) fails: a list with a repeated index and an index beyond
    the three atoms of the structure is accepted, and the stored array keeps
    the duplicate and the out-of-range element. *)
Lemma core_idx_setter_keeps_duplicates_and_range :
  ∃ l, core_idx_setter (PySeq [2; 7; 2]) = Ok (Nd1 l)
       ∧ ¬ NoDup l
       ∧ ¬ Forall (λ z, 0 ≤ z < 3) l.
Proof.
  exists [1; 1; 6]. split; [reflexivity|]. split.
  - intros Hnd. apply NoDup_cons in Hnd as [Hin _]. apply Hin. left.
  - intros Hall. apply Forall_cons in Hall as [_ Hall].
    apply Forall_cons in Hall as [_ Hall].
    apply Forall_cons in Hall as [Hz _]. lia.
Qed.

(** C6 (amended): for a sequence or a one-shot iterator of 64-bit integers
    the coercion succeeds; the stored array is sorted ascending and is a
    rearrangement of the inputs each decreased by one.  Nothing is removed
    and nothing is checked: the array lies in [[0, atom_count)] when the
    inputs lie in [[1, atom_count]], and is duplicate-free when the inputs
    are. *)
Theorem core_idx_setter_sorted (value : pyindices) (l : list Z) (atom_count : Z) :
  value = PySeq l ∨ value = PyIterator l →
  forallb in_int64 l = true →
  ∃ l', core_idx_setter value = Ok (Nd1 l')
        ∧ StronglySorted Z.le l'
        ∧ l' ≡ₚ map (λ z, wrap64 (z - 1)) l
        ∧ (Forall (λ z, 1 ≤ z ≤ atom_count) l → Forall (λ z, 0 ≤ z < atom_count) l')
        ∧ (NoDup l → NoDup l').
Proof.
  intros Hv Hl. unfold core_idx_setter.
  rewrite (as_array_list _ _ Hv Hl). simpl.
  eexists. split; [reflexivity|].
  assert (Hperm : merge_sort Z.le (map (λ z, wrap64 (z - 1)) l)
                    ≡ₚ map (λ z, wrap64 (z - 1)) l)
    by apply merge_sort_Permutation.
  split; [apply StronglySorted_merge_sort; apply _|].
  split; [exact Hperm|].
  assert (Hin : Forall (λ z, int64_min ≤ z ≤ int64_max) l).
  { apply Forall_forall. intros z Hz. apply in_int64_spec.
    rewrite forallb_forall in Hl. apply Hl. by apply list_elem_of_In. }
  split.
  - intros Hrange. rewrite Hperm. apply Forall_fmap.
    apply Forall_forall. intros z Hz. simpl.
    rewrite Forall_forall in Hrange, Hin.
    specialize (Hrange z Hz). specialize (Hin z Hz).
    rewrite wrap64_id; unfold int64_min, int64_max in *; lia.
  - intros Hnd. rewrite Hperm.
    apply (NoDup_fmap_2_strong (λ z, wrap64 (z - 1))); [|exact Hnd].
    intros x y Hx Hy. rewrite Forall_forall in Hin.
    pose proof (Hin x Hx) as Hx'. pose proof (Hin y Hy) as Hy'.
    unfold wrap64, int64_min, int64_max in *. intros Heq.
    destruct (decide (x = - 2 ^ 63)) as [->|Hnx];
      destruct (decide (y = - 2 ^ 63)) as [->|Hny]; try reflexivity.
    + rewrite (Z.mod_small (y - 1 + 2 ^ 63)) in Heq by lia.
      change ((- 2 ^ 63 - 1 + 2 ^ 63) mod 2 ^ 64) with (2 ^ 64 - 1) in Heq. lia.
    + rewrite (Z.mod_small (x - 1 + 2 ^ 63)) in Heq by lia.
      change ((- 2 ^ 63 - 1 + 2 ^ 63) mod 2 ^ 64) with (2 ^ 64 - 1) in Heq. lia.
    + rewrite !Z.mod_small in Heq by lia. lia.
Qed.

Lemma core_idx_setter_sorted_witness :
  ∃ l', core_idx_setter (PyIterator [3; 1; 2]) = Ok (Nd1 l')
        ∧ StronglySorted Z.le l'
        ∧ l' ≡ₚ map (λ z, wrap64 (z - 1)) [3; 1; 2]
        ∧ (Forall (λ z, 1 ≤ z ≤ 3) [3; 1; 2] → Forall (λ z, 0 ≤ z < 3) l')
        ∧ (NoDup [3; 1; 2] → NoDup l').
Proof.
  apply (core_idx_setter_sorted (PyIterator [3; 1; 2]) [3; 1; 2] 3).
  - right. reflexivity.
  - reflexivity.
Defined.

(** ** The structure partitioner *)

Section Partition.
Variable func : Atom → Z.

Lemma keyed_snoc k es ia :
  keyed func k (es ++ [ia]) =
  keyed func k es ++ (if decide (func ia.2 = k) then [ia.1] else []).
Proof.
  unfold keyed. rewrite filter_app, fmap_app. f_equal.
  rewrite filter_cons, filter_nil. case_decide; reflexivity.
Qed.

Lemma partition_inv_init : partition_inv func [] (mkPartitionState [] ∅ ∅).
Proof.
  repeat split; simpl; intros; try done;
    match goal with H : ∅ !! _ = Some _ |- _ => by rewrite lookup_empty in H end.
Qed.

Lemma partition_inv_step es st ia :
  partition_inv func es st → partition_inv func (es ++ [ia]) (partition_step func st ia).
Proof.
  intros (Happ & Hsome & Hnone & Hinj). unfold partition_step.
  rewrite Happ. destruct (ret_refs st !! func ia.2) as [ref|] eqn:Hkey;
    unfold partition_inv; simpl.
  - (* the key is known: the list object it refers to grows *)
    split; [done|]. split; [|split; [|done]].
    + intros k r Hk. destruct (decide (k = func ia.2)) as [->|Hne].
      * assert (r = ref) as -> by congruence.
        destruct (Hsome _ _ Hkey) as [Hheap Hnil].
        rewrite list_lookup_alter_eq, Hheap, keyed_snoc.
        rewrite decide_True by done. split; [reflexivity|].
        intros Hnil'. by apply app_eq_nil in Hnil' as [_ ?].
      * assert (ref ≠ r) by (intros ->; apply Hne; eauto).
        rewrite list_lookup_alter_ne by done.
        rewrite keyed_snoc, decide_False by done.
        rewrite app_nil_r. by apply Hsome.
    + intros k Hk. rewrite keyed_snoc, decide_False by congruence.
      rewrite app_nil_r. by apply Hnone.
  - (* a new key: a new list object *)
    assert (Hfresh : ∀ k r, ret_refs st !! k = Some r → (r < length (heap st))%nat).
    { intros k r Hk. destruct (Hsome _ _ Hk) as [Hheap _].
      by apply lookup_lt_Some in Hheap. }
    split; [done|]. split; [|split].
    + intros k r Hk. destruct (decide (k = func ia.2)) as [->|Hne].
      * rewrite lookup_insert_eq in Hk. injection Hk as <-.
        rewrite keyed_snoc, decide_True, (Hnone _ Hkey) by done.
        rewrite lookup_app_r by lia. by rewrite Nat.sub_diag.
      * rewrite lookup_insert_ne in Hk by done.
        rewrite lookup_app_l by eauto.
        rewrite keyed_snoc, decide_False, app_nil_r by done.
        by apply Hsome.
    + intros k Hk. apply lookup_insert_None in Hk as [Hk Hne].
      rewrite keyed_snoc, decide_False, app_nil_r by done. by apply Hnone.
    + intros k1 k2 r Hk1 Hk2.
      destruct (decide (k1 = func ia.2)) as [->|Hne1];
        destruct (decide (k2 = func ia.2)) as [->|Hne2]; try done.
      * rewrite lookup_insert_eq in Hk1. rewrite lookup_insert_ne in Hk2 by done.
        injection Hk1 as <-. apply Hfresh in Hk2. lia.
      * rewrite lookup_insert_eq in Hk2. rewrite lookup_insert_ne in Hk1 by done.
        injection Hk2 as <-. apply Hfresh in Hk1. lia.
      * rewrite lookup_insert_ne in Hk1, Hk2 by done. eauto.
Qed.

Lemma partition_inv_foldl rest : ∀ es st,
  partition_inv func es st →
  partition_inv func (es ++ rest) (foldl (partition_step func) st rest).
Proof.
  induction rest as [|ia rest IH]; intros es st Hinv; simpl.
  - by rewrite app_nil_r.
  - rewrite (assoc_L (++) es [ia] rest : es ++ ia :: rest = (es ++ [ia]) ++ rest).
    apply IH. by apply partition_inv_step.
Qed.

(** The dictionary that is returned, key by key. *)
Lemma partition_lookup (m : Molecule) (k : Z) :
  read_dict (partition_loop func m) !! k =
  match keyed func k (enumerate (atoms m) 1) with
  | [] => None
  | l => Some l
  end.
Proof.
  pose proof (partition_inv_foldl (enumerate (atoms m) 1) [] _ partition_inv_init)
    as (_ & Hsome & Hnone & _).
  simpl in *. fold (partition_loop func m) in *.
  unfold read_dict. rewrite lookup_fmap.
  destruct (ret_refs (partition_loop func m) !! k) as [ref|] eqn:Hk; simpl.
  - destruct (Hsome _ _ Hk) as [-> Hne]. simpl.
    by destruct (keyed func k (enumerate (atoms m) 1)).
  - by rewrite (Hnone _ Hk).
Qed.

Lemma enumerate_cons (a : Atom) l s :
  enumerate (a :: l) s = (s, a) :: enumerate l (s + 1).
Proof.
  unfold enumerate. simpl length. rewrite seqZ_cons by lia. simpl.
  do 3 f_equal; lia.
Qed.

Lemma elem_of_enumerate (l : list Atom) : ∀ s i a,
  (i, a) ∈ enumerate l s ↔ s ≤ i ∧ l !! Z.to_nat (i - s) = Some a.
Proof.
  induction l as [|b l IH]; intros s i a.
  - unfold enumerate. simpl. rewrite elem_of_nil.
    split; [done|]. intros [_ Hl]. by rewrite lookup_nil in Hl.
  - rewrite enumerate_cons, elem_of_cons. rewrite IH. split.
    + intros [[= -> ->] | [Hle Hl]].
      * split; [lia|]. by rewrite Z.sub_diag.
      * split; [lia|]. replace (Z.to_nat (i - s)) with (S (Z.to_nat (i - (s + 1)))) by lia.
        done.
    + intros [Hle Hl]. destruct (decide (i = s)) as [->|Hne].
      * left. rewrite Z.sub_diag in Hl. simpl in Hl. congruence.
      * right. split; [lia|].
        replace (Z.to_nat (i - s)) with (S (Z.to_nat (i - (s + 1)))) in Hl by lia.
        done.
Qed.

Lemma elem_of_keyed (l : list Atom) s k i :
  i ∈ keyed func k (enumerate l s) ↔
  s ≤ i ∧ ∃ a, l !! Z.to_nat (i - s) = Some a ∧ func a = k.
Proof.
  unfold keyed. rewrite list_elem_of_fmap. split.
  - intros ([i' a] & -> & Hin). apply list_elem_of_filter in Hin as [Hk Hin].
    apply elem_of_enumerate in Hin as [Hle Hl]. eauto.
  - intros (Hle & a & Hl & Hk). exists (i, a). split; [done|].
    apply list_elem_of_filter. split; [done|]. by apply elem_of_enumerate.
Qed.

Lemma keyed_increasing (l : list Atom) : ∀ s k,
  StronglySorted Z.lt (keyed func k (enumerate l s)).
Proof.
  induction l as [|a l IH]; intros s k.
  - unfold enumerate, keyed. simpl. constructor.
  - rewrite enumerate_cons. unfold keyed. rewrite filter_cons.
    case_decide; [|apply IH].
    rewrite fmap_cons. constructor; [apply IH|].
    apply Forall_forall. intros i Hi.
    apply (elem_of_keyed l (s + 1) k i) in Hi as [Hle _]. simpl. lia.
Qed.
End Partition.

(** C10: the dictionary returned by [partition_mol] partitions the index
    range [1..atom count]: every index is in the list stored under the key
    of its atom, an index found in a list is a valid index whose atom has
    that list's key (so no index is in two lists), and every list is
    strictly increasing (so no index is twice in one list). *)
Theorem partition_mol_is_partition (self : MolDissociater) (key : option (Atom → Z)) :
  (∀ i a, 1 ≤ i → atoms (mol self) !! Z.to_nat (i - 1) = Some a →
     ∃ l, partition_mol self key !! (default residue_number key) a = Some l ∧ i ∈ l)
  ∧ (∀ k l i, partition_mol self key !! k = Some l → i ∈ l →
       1 ≤ i ≤ Z.of_nat (length (atoms (mol self)))
       ∧ ∃ a, atoms (mol self) !! Z.to_nat (i - 1) = Some a
              ∧ (default residue_number key) a = k)
  ∧ (∀ k k' l l' i, partition_mol self key !! k = Some l →
       partition_mol self key !! k' = Some l' → i ∈ l → i ∈ l' → k = k')
  ∧ (∀ k l, partition_mol self key !! k = Some l → StronglySorted Z.lt l).
Proof.
  set (func := default residue_number key).
  assert (Hlook : ∀ k, partition_mol self key !! k =
            match keyed func k (enumerate (atoms (mol self)) 1) with
            | [] => None
            | l => Some l
            end).
  { intros k. unfold partition_mol, partition_mol_of.
    replace (match key with Some f => f | None => residue_number end) with func
      by (subst func; by destruct key).
    apply partition_lookup. }
  assert (Hget : ∀ k l, partition_mol self key !! k = Some l →
            l = keyed func k (enumerate (atoms (mol self)) 1)).
  { intros k l. rewrite Hlook.
    destruct (keyed func k (enumerate (atoms (mol self)) 1)); congruence. }
  assert (Hmem : ∀ k l i, partition_mol self key !! k = Some l → i ∈ l →
            1 ≤ i ≤ Z.of_nat (length (atoms (mol self)))
            ∧ ∃ a, atoms (mol self) !! Z.to_nat (i - 1) = Some a ∧ func a = k).
  { intros k l i Hk Hi. rewrite (Hget _ _ Hk) in Hi.
    apply elem_of_keyed in Hi as (Hle & a & Ha & Hf).
    split; [|eauto]. apply lookup_lt_Some in Ha. lia. }
  split; [|split; [exact Hmem|split]].
  - intros i a Hi Ha.
    assert (Hin : i ∈ keyed func (func a) (enumerate (atoms (mol self)) 1))
      by (apply elem_of_keyed; eauto).
    rewrite Hlook.
    destruct (keyed func (func a) (enumerate (atoms (mol self)) 1)) as [|x l] eqn:Heq.
    + by apply elem_of_nil in Hin.
    + eauto.
  - intros k k' l l' i Hk Hk' Hi Hi'.
    destruct (Hmem _ _ _ Hk Hi) as (_ & a & Ha & <-).
    destruct (Hmem _ _ _ Hk' Hi') as (_ & a' & Ha' & <-). congruence.
  - intros k l Hk. rewrite (Hget _ _ Hk). apply keyed_increasing.
Qed.

(** ** Auxiliary facts on arrays *)

Lemma py_index_in_range {A} (d : A) (l : list A) (z : Z) :
  0 ≤ z < Z.of_nat (length l) → py_index l z = Ok (nth (Z.to_nat z) l d).
Proof.
  intros Hz. unfold py_index.
  destruct (0 <=? z) eqn:H0; [|apply Z.leb_gt in H0; lia].
  rewrite H0. destruct (z <? Z.of_nat (length l)) eqn:H1; [|apply Z.ltb_ge in H1; lia].
  simpl. destruct (l !! Z.to_nat z) as [x|] eqn:Hl.
  - f_equal. symmetry. apply nth_lookup_Some with (d := d) in Hl. exact Hl.
  - apply lookup_ge_None in Hl. lia.
Qed.

Lemma mapM_ok {A B} (f : A → res B) (g : A → B) (l : list A) :
  Forall (λ x, f x = Ok (g x)) l → mapM f l = Ok (map g l).
Proof.
  induction 1 as [|x l Hx _ IH]; simpl; [reflexivity|].
  by rewrite Hx, IH.
Qed.

Lemma np_take_in_range {A} (d : A) (a : list A) (idx : list Z) :
  Forall (λ z, 0 ≤ z < Z.of_nat (length a)) idx →
  np_take a idx = Ok (map (λ z, nth (Z.to_nat z) a d) idx).
Proof.
  intros Hidx. apply mapM_ok. eapply Forall_impl; [exact Hidx|].
  intros z Hz. by apply py_index_in_range.
Qed.

Lemma filter_ext_elem {A} (P Q : A → Prop) `{∀ x, Decision (P x)}
    `{∀ x, Decision (Q x)} (l : list A) :
  (∀ x, x ∈ l → (P x ↔ Q x)) → filter P l = filter Q l.
Proof.
  induction l as [|x l IH]; intros Hext; [reflexivity|].
  rewrite !filter_cons.
  assert (HPQ : P x ↔ Q x) by (apply Hext; left).
  rewrite IH by (intros y Hy; apply Hext; by right).
  destruct (decide (P x)), (decide (Q x)); tauto.
Qed.

(** The hits of one row of a filled distance matrix: the diagonal entry is
    compared as the fill value, every other entry as the distance. *)
Lemma where1_filled_row `{!ArrayLib} (cmp : float → float → bool) (m : float)
    (a : point) (XB : list point) (r : nat) :
  where1 (map (λ d, cmp d m) (<[r := m]> (map (euclidean a) XB))) =
  filter (λ c, (c = r ∧ cmp m m = true)
               ∨ (c ≠ r ∧ cmp (euclidean a (nth c XB origin)) m = true))
         (seq 0 (length XB)).
Proof.
  unfold where1. rewrite length_map, length_insert, length_map.
  apply filter_ext_elem. intros c Hc.
  apply elem_of_seq in Hc as [_ Hc]. simpl in Hc.
  rewrite list_lookup_fmap.
  destruct (decide (c = r)) as [->|Hne].
  - rewrite list_lookup_insert_eq by (rewrite length_map; lia). simpl.
    split; [intros [= ->]; by left|].
    intros [[_ ->]|[? _]]; [reflexivity|done].
  - rewrite list_lookup_insert_ne by done.
    rewrite list_lookup_fmap.
    destruct (XB !! c) as [b|] eqn:Hb; [|apply lookup_ge_None in Hb; lia].
    simpl. rewrite (nth_lookup_Some _ _ origin _ Hb).
    split; [intros [= ->]; by right|].
    intros [[? _]|[_ ->]]; [done|reflexivity].
Qed.

(** The hits of a filled distance matrix, row by row. *)
Lemma np_where2_filled `{!ArrayLib} (cmp : float → float → bool) (m : float)
    (XA XB : list point) :
  np_where2 (map (map (λ d, cmp d m)) (fill_diagonal (cdist XA XB) m)) =
  concat (imap (λ r a, map (pair r)
     (filter (λ c, (c = r ∧ cmp m m = true)
                   ∨ (c ≠ r ∧ cmp (euclidean a (nth c XB origin)) m = true))
             (seq 0 (length XB)))) XA).
Proof.
  unfold np_where2, fill_diagonal, cdist. f_equal.
  apply list_eq. intros r.
  rewrite !list_lookup_imap, list_lookup_fmap, list_lookup_imap, list_lookup_fmap.
  destruct (XA !! r) as [a|]; simpl; [|reflexivity].
  f_equal. f_equal. apply where1_filled_row.
Qed.

Lemma imap_blocks {A} (h : nat → A → list nat) (l : list A) :
  concat (imap (λ r a, map (pair r) (h r a)) l) =
  flatten_blocks (imap (λ r a, (r, h r a)) l).
Proof.
  unfold flatten_blocks. f_equal.
  change (map ?f ?l) with (f <$> l). rewrite fmap_imap. reflexivity.
Qed.

Lemma imap_keys {A B} (h : nat → A → B) (l : list A) :
  (imap (λ r a, (r, h r a)) l).*1 = seq 0 (length l).
Proof.
  apply list_eq. intros r. rewrite list_lookup_fmap, list_lookup_imap.
  destruct (l !! r) as [a|] eqn:Hr; simpl.
  - symmetry. apply lookup_seq. split; [reflexivity|]. by apply lookup_lt_Some in Hr.
  - symmetry. apply lookup_ge_None. rewrite length_seq. by apply lookup_ge_None in Hr.
Qed.

Lemma rows_of_block_same (r : nat) (cs : list nat) :
  length (filter (λ y, y = r) (map (pair r) cs).*1) = length cs.
Proof.
  induction cs as [|c cs IH]; [reflexivity|].
  simpl. rewrite filter_cons_True by done. simpl. f_equal. exact IH.
Qed.

Lemma rows_of_block_other (k r : nat) (cs : list nat) :
  k ≠ r → filter (λ y, y = r) (map (pair k) cs).*1 = [].
Proof.
  intros Hne. induction cs as [|c cs IH]; [reflexivity|].
  simpl. rewrite filter_cons_False by done. exact IH.
Qed.

Lemma flatten_blocks_cons k cs (blocks : list (nat * list nat)) :
  flatten_blocks ((k, cs) :: blocks) = map (pair k) cs ++ flatten_blocks blocks.
Proof. reflexivity. Qed.

Lemma flatten_blocks_rows_absent (blocks : list (nat * list nat)) (r : nat) :
  r ∉ blocks.*1 → filter (λ y, y = r) (flatten_blocks blocks).*1 = [].
Proof.
  induction blocks as [|[k cs] blocks IH]; intros Hr; [reflexivity|].
  rewrite flatten_blocks_cons, fmap_app, filter_app.
  rewrite IH by (intros ?; apply Hr; by right).
  rewrite app_nil_r. apply rows_of_block_other.
  intros ->. apply Hr. left.
Qed.

Lemma flatten_blocks_rows_count (blocks : list (nat * list nat)) (r : nat) cs :
  NoDup blocks.*1 → (r, cs) ∈ blocks →
  length (filter (λ y, y = r) (flatten_blocks blocks).*1) = length cs.
Proof.
  induction blocks as [|[k ks] blocks IH]; intros Hnd Hin.
  - by apply elem_of_nil in Hin.
  - simpl in Hnd. apply NoDup_cons in Hnd as [Hk Hnd].
    rewrite flatten_blocks_cons, fmap_app, filter_app, length_app.
    apply elem_of_cons in Hin as [[= <- <-]|Hin].
    + rewrite (flatten_blocks_rows_absent blocks r Hk), rows_of_block_same.
      simpl. lia.
    + rewrite IH by done.
      rewrite rows_of_block_other; [reflexivity|].
      intros ->. apply Hk. apply list_elem_of_fmap. by exists (r, cs).
Qed.

Lemma max_list_bound (x : list nat) (n : nat) :
  Forall (λ y, (y < n)%nat) x → x ≠ [] → (S (max_list x) ≤ n)%nat.
Proof.
  induction 1 as [|y x Hy Hx IH]; intros Hne; [done|].
  simpl. destruct x as [|z x].
  - simpl. lia.
  - specialize (IH ltac:(done)). simpl in *. lia.
Qed.

Lemma bincount_in_range (x : list nat) (n : nat) :
  Forall (λ y, (y < n)%nat) x →
  bincount x n = map (λ k, Z.of_nat (length (filter (λ y, y = k) x))) (seq 0 n).
Proof.
  intros Hx. unfold bincount. destruct x as [|y x]; [reflexivity|].
  pose proof (max_list_bound (y :: x) n Hx ltac:(done)).
  f_equal. f_equal. lia.
Qed.

Lemma filter_or_one {A} `{EqDecision A} (Q : A → Prop) `{∀ x, Decision (Q x)}
    (r : A) (l : list A) :
  NoDup l → r ∈ l →
  length (filter (λ c, c = r ∨ (c ≠ r ∧ Q c)) l) =
  S (length (filter (λ c, c ≠ r ∧ Q c) l)).
Proof.
  induction l as [|x l IH]; intros Hnd Hin; [by apply elem_of_nil in Hin|].
  apply NoDup_cons in Hnd as [Hx Hnd].
  destruct (decide (x = r)) as [->|Hne].
  - rewrite filter_cons_True by (by left).
    rewrite (filter_cons_False (λ c, c ≠ r ∧ Q c)) by (intros [? _]; done).
    simpl. f_equal. f_equal. apply filter_ext_elem.
    intros c Hc. assert (c ≠ r) by (intros ->; done). tauto.
  - apply elem_of_cons in Hin as [->|Hin]; [done|].
    rewrite !filter_cons.
    destruct (decide (x = r ∨ x ≠ r ∧ Q x)) as [Hd|Hd];
      destruct (decide (x ≠ r ∧ Q x)) as [Hq|Hq]; simpl;
      rewrite ?IH by done; try reflexivity; tauto.
Qed.

Lemma flatten_blocks_rows_keys (blocks : list (nat * list nat)) (y : nat) :
  y ∈ (flatten_blocks blocks).*1 → y ∈ blocks.*1.
Proof.
  induction blocks as [|[k cs] blocks IH]; intros Hy.
  - by apply elem_of_nil in Hy.
  - rewrite flatten_blocks_cons, fmap_app in Hy. apply elem_of_app in Hy as [Hy|Hy].
    + apply list_elem_of_fmap in Hy as ([k' c] & -> & Hin).
      apply list_elem_of_fmap in Hin as (c' & [= -> ->] & _). left.
    + right. by apply IH.
Qed.

(** ** The topology classifier *)

(** The raw bin counts of [assign_topology]: every core position counts
    itself, through the filled diagonal, and the other core positions at
    distance at most [max_dist]. *)
Lemma assign_topology_bincount `{!ArrayLib} (m : float) (xi : list point) :
  (m <=? m)%float = true →
  bincount (np_where2 (map (map (λ d, (d <=? m)%float))
                           (fill_diagonal (cdist xi xi) m))).*1 (length xi) =
  map (λ r, Z.of_nat (S (length (others (within m) (nth r xi origin) r xi))))
      (seq 0 (length xi)).
Proof.
  intros Hm.
  rewrite (np_where2_filled PrimFloat.leb), imap_blocks.
  set (hits := λ (r : nat) (a : point),
         filter (λ c, (c = r ∧ (m <=? m)%float = true)
                      ∨ (c ≠ r ∧ (euclidean a (nth c xi origin) <=? m)%float = true))
                (seq 0 (length xi))).
  set (blocks := imap (λ r a, (r, hits r a)) xi).
  assert (Hkeys : blocks.*1 = seq 0 (length xi)) by apply imap_keys.
  rewrite bincount_in_range.
  2:{ apply Forall_forall. intros y Hy.
      pose proof (flatten_blocks_rows_keys blocks y Hy) as Hy'.
      rewrite Hkeys in Hy'. apply elem_of_seq in Hy'. lia. }
  apply map_ext_in. intros r Hr. apply in_seq in Hr as [_ Hr]. simpl in Hr.
  f_equal.
  destruct (xi !! r) as [a|] eqn:Ha; [|apply lookup_ge_None in Ha; lia].
  transitivity (length (hits r a)).
  - apply (flatten_blocks_rows_count blocks r (hits r a)).
    + rewrite Hkeys. apply NoDup_seq.
    + apply list_elem_of_lookup. exists r. unfold blocks.
      rewrite list_lookup_imap, Ha. reflexivity.
  - rewrite (nth_lookup_Some _ _ origin _ Ha). unfold hits, others.
    rewrite <- (filter_or_one (λ c, within m a (nth c xi origin) = true) r).
    + f_equal. apply filter_ext_elem. intros c _.
      rewrite Hm. unfold within. tauto.
    + apply NoDup_seq.
    + apply elem_of_seq. lia.
Qed.

Lemma assign_topology_counts `{!ArrayLib} (self : MolDissociater) :
  Z.of_nat (length (_core_idx self)) ≤ int64_max →
  (_max_dist self <=? _max_dist self)%float = true →
  let xi := core_points self in
  map (λ c, wrap64 (c - 1))
      (bincount (np_where2 (map (map (λ d, (d <=? _max_dist self)%float))
                                (fill_diagonal (cdist xi xi) (_max_dist self)))).*1
                (length (_core_idx self))) =
  map (neighbours (within (_max_dist self)) self) (seq 0 (length (_core_idx self))).
Proof.
  intros Hlen Hm xi.
  assert (Hxi : length xi = length (_core_idx self))
    by (unfold xi, core_points; apply length_map).
  rewrite <- Hxi, assign_topology_bincount, map_map by done.
  apply map_ext. intros r. unfold neighbours. fold xi.
  pose proof (length_filter (λ c, c ≠ r ∧ within (_max_dist self) (nth r xi origin)
                                         (nth c xi origin) = true)
                            (seq 0 (length xi))) as Hle.
  rewrite length_seq in Hle. unfold others.
  rewrite wrap64_id; unfold int64_min, int64_max in *; lia.
Qed.

Lemma mol_getitem_in_range (natoms : nat) (j : Z) :
  0 ≤ j < Z.of_nat natoms → mol_getitem natoms (1 + j) = Ok (Z.to_nat j).
Proof.
  intros Hj. unfold mol_getitem.
  destruct (1 + j =? 0) eqn:H0; [apply Z.eqb_eq in H0; lia|].
  destruct (1 + j <? 0) eqn:H1; [apply Z.ltb_lt in H1; lia|].
  replace (1 + j - 1) with j by lia.
  destruct (0 <=? j) eqn:H2; [|apply Z.leb_gt in H2; lia].
  destruct (j <? Z.of_nat natoms) eqn:H3; [|apply Z.ltb_ge in H3; lia].
  reflexivity.
Qed.

Lemma foldM_cons {A S} (f : S → A → res S) (s : S) (x : A) (l : list A) :
  foldM f s (x :: l) = s' ← f s x; foldM f s' l.
Proof. reflexivity. Qed.

Lemma write_topology_in_range (m : Molecule) (j : Z) (top : string) :
  0 ≤ j < Z.of_nat (length (atoms m)) →
  write_topology m (1 + j) top =
  Ok (mkMolecule (alter (λ a, set_topology a top) (Z.to_nat j) (atoms m))
                 (prop_indices m)).
Proof.
  intros Hj. unfold write_topology. by rewrite mol_getitem_in_range.
Qed.

(** The loop of [assign_topology] as a pure update of the atom list. *)
Lemma write_loop_ok (items : list (Z * string)) : ∀ m,
  Forall (λ jt, 0 ≤ jt.1 < Z.of_nat (length (atoms m))) items →
  foldM (λ m0 j_top, write_topology m0 (1 + j_top.1) j_top.2) m items =
  Ok (mkMolecule
        (foldl (λ l jt, alter (λ a, set_topology a jt.2) (Z.to_nat jt.1) l)
               (atoms m) items)
        (prop_indices m)).
Proof.
  induction items as [|[j top] items IH]; intros m Hr.
  - by destruct m.
  - apply Forall_cons in Hr as [Hj Hr]. cbn [fst snd] in Hj.
    rewrite foldM_cons. cbn [fst snd].
    rewrite write_topology_in_range by done.
    py_step.
    rewrite IH; [reflexivity|]. cbn [atoms]. rewrite length_alter. exact Hr.
Qed.

Lemma write_loop_other (items : list (Z * string)) (p : nat) : ∀ l : list Atom,
  (∀ jt, jt ∈ items → Z.to_nat jt.1 ≠ p) →
  foldl (λ l jt, alter (λ a, set_topology a jt.2) (Z.to_nat jt.1) l) l items !! p
  = l !! p.
Proof.
  induction items as [|[j top] items IH]; intros l Hp; simpl; [reflexivity|].
  rewrite IH by (intros jt Hjt; apply Hp; by right).
  apply list_lookup_alter_ne. apply (Hp (j, top)). left.
Qed.

Lemma write_loop_written (items : list (Z * string)) (r : nat) (j : Z) top :
  ∀ l : list Atom,
  Forall (λ jt, 0 ≤ jt.1) items → NoDup items.*1 →
  items !! r = Some (j, top) →
  foldl (λ l jt, alter (λ a, set_topology a jt.2) (Z.to_nat jt.1) l) l items
    !! Z.to_nat j
  = (λ a, set_topology a top) <$> l !! Z.to_nat j.
Proof.
  revert r. induction items as [|[j0 t0] items IH]; intros r l Hpos Hnd Hr.
  - by rewrite lookup_nil in Hr.
  - apply Forall_cons in Hpos as [Hj0 Hpos]. simpl in Hnd, Hj0.
    apply NoDup_cons in Hnd as [Hnew Hnd]. simpl.
    destruct r as [|r]; simpl in Hr.
    + injection Hr as -> ->.
      rewrite write_loop_other.
      * apply list_lookup_alter_eq.
      * intros [j' t'] Hin Heq. simpl in Heq. apply Hnew.
        rewrite Forall_forall in Hpos. specialize (Hpos _ Hin). simpl in Hpos.
        assert (j' = j) as -> by lia.
        apply list_elem_of_fmap. by exists (j, t').
    + rewrite (IH r) by done.
      rewrite list_lookup_alter_ne; [reflexivity|].
      intros Heq. apply Hnew.
      assert (0 ≤ j).
      { rewrite Forall_forall in Hpos.
        apply (Hpos (j, top)). apply list_elem_of_lookup. eauto. }
      assert (j0 = j) as -> by lia.
      apply list_elem_of_fmap. exists (j, top). split; [done|].
      apply list_elem_of_lookup. eauto.
Qed.

Lemma get_topology_labels (self : MolDissociater) (counts : list Z) :
  _get_topology self counts = map (topology_of (_topology self)) counts.
Proof.
  unfold _get_topology. apply map_ext. intros c. unfold topology_of.
  by destruct (_topology self !! c).
Qed.

Lemma topology_of_zero_default : topology_of ∅ 0 = "0_neighbours".
Proof. reflexivity. Qed.

(** C5 (as stated) fails on the boundary: two core atoms at distance
    exactly [max_dist] have no other core atom strictly within [max_dist],
    yet the label written is the one for the count 1. *)
Lemma assign_topology_counts_the_boundary :
  neighbours (closer_than (_max_dist two_atoms_engine)) two_atoms_engine 0 = 0
  ∧ ∃ self' a, assign_topology two_atoms_engine = Ok self'
      ∧ atoms (mol self') !! 0%nat = Some a
      ∧ topology_label a = Some "1_neighbours"
      ∧ topology_label a ≠
          Some (topology_of (_topology two_atoms_engine)
                  (neighbours (closer_than (_max_dist two_atoms_engine))
                              two_atoms_engine 0)).
Proof.
  split; [reflexivity|].
  eexists _, _. split; [vm_compute; reflexivity|].
  split; [reflexivity|]. split; [reflexivity|]. vm_compute. discriminate.
Qed.

Lemma bincount_length (x : list nat) (n : nat) : (n ≤ length (bincount x n))%nat.
Proof.
  unfold bincount. rewrite length_map, length_seq. destruct x; lia.
Qed.

Lemma computed_topology_length `{!ArrayLib} (self : MolDissociater) :
  (length (_core_idx self) ≤ length (computed_topology self))%nat.
Proof.
  unfold computed_topology, _get_topology. rewrite !length_map.
  apply bincount_length.
Qed.

(** The engine that [assign_topology] returns, on valid core indices. *)
Lemma assign_topology_result `{!ArrayLib} (self : MolDissociater) :
  Forall (λ z, 0 ≤ z < Z.of_nat (length (atoms (mol self)))) (_core_idx self) →
  length (_coords self) = length (atoms (mol self)) →
  assign_topology self =
  Ok (with_mol self
        (mkMolecule
           (foldl (λ l jt, alter (λ a, set_topology a jt.2) (Z.to_nat jt.1) l)
                  (atoms (mol self))
                  (zip (_core_idx self) (computed_topology self)))
           (prop_indices (mol self)))).
Proof.
  intros Hrange Hcoords. unfold assign_topology.
  rewrite (np_take_in_range origin) by (by rewrite Hcoords).
  change (map (λ z, nth (Z.to_nat z) (_coords self) origin) (_core_idx self))
    with (core_points self).
  py_step. fold (computed_topology self).
  rewrite write_loop_ok; [reflexivity|].
  apply Forall_forall. intros [j t] Hin. cbn [fst].
  rewrite Forall_forall in Hrange. apply Hrange.
  by apply elem_of_zip_l in Hin.
Qed.

(** The labels are those of the neighbour counts, when the threshold is a
    number (not a NaN). *)
Lemma computed_topology_labels `{!ArrayLib} (self : MolDissociater) :
  Z.of_nat (length (_core_idx self)) ≤ int64_max →
  (_max_dist self <=? _max_dist self)%float = true →
  computed_topology self =
  map (topology_of (_topology self))
      (map (neighbours (within (_max_dist self)) self)
           (seq 0 (length (_core_idx self)))).
Proof.
  intros Hlen Hm. unfold computed_topology.
  cbv zeta. rewrite (assign_topology_counts self Hlen Hm).
  apply get_topology_labels.
Qed.

(** C5 (amended): [assign_topology] succeeds on an engine whose core indices
    are valid and distinct and whose threshold is a number, and the atom of
    every core index gets, under [topology], the label of the number of the
    other core atoms whose distance, as [cdist] returns it, is at most
    [max_dist] in double precision (boundary included): the entry of the
    topology mapping when that number is a key, ["<count>_neighbours"]
    otherwise.  The other fields of the atom are kept. *)
Theorem assign_topology_labels `{!ArrayLib} (self : MolDissociater) :
  Forall (λ z, 0 ≤ z < Z.of_nat (length (atoms (mol self)))) (_core_idx self) →
  NoDup (_core_idx self) →
  length (_coords self) = length (atoms (mol self)) →
  Z.of_nat (length (_core_idx self)) ≤ int64_max →
  (_max_dist self <=? _max_dist self)%float = true →
  ∃ self', assign_topology self = Ok self'
    ∧ ∀ r j, _core_idx self !! r = Some j →
        ∃ a, atoms (mol self) !! Z.to_nat j = Some a
           ∧ atoms (mol self') !! Z.to_nat j =
             Some (set_topology a
                     (topology_of (_topology self)
                        (neighbours (within (_max_dist self)) self r))).
Proof.
  intros Hrange Hnd Hcoords Hlen Hm.
  rewrite (assign_topology_result self Hrange Hcoords).
  rewrite (computed_topology_labels self Hlen Hm).
  set (tops := map (topology_of (_topology self))
                   (map (neighbours (within (_max_dist self)) self)
                        (seq 0 (length (_core_idx self))))).
  assert (Htops : length tops = length (_core_idx self))
    by (unfold tops; by rewrite !length_map, length_seq).
  assert (Hfst : (zip (_core_idx self) tops).*1 = _core_idx self)
    by (apply fst_zip; lia).
  eexists. split; [reflexivity|].
  intros r j Hr. cbn [mol with_mol atoms].
  assert (Hj : 0 ≤ j < Z.of_nat (length (atoms (mol self)))).
  { rewrite Forall_forall in Hrange. apply Hrange. apply list_elem_of_lookup. eauto. }
  destruct (atoms (mol self) !! Z.to_nat j) as [a|] eqn:Ha;
    [|apply lookup_ge_None in Ha; lia].
  exists a. split; [reflexivity|].
  erewrite (write_loop_written _ r j).
  - rewrite Ha. reflexivity.
  - apply Forall_forall. intros [j' t'] Hin. cbn [fst].
    rewrite Forall_forall in Hrange. apply Hrange.
    rewrite <- Hfst. apply list_elem_of_fmap. by exists (j', t').
  - by rewrite Hfst.
  - apply lookup_zip_with_Some. eexists _, _. split; [reflexivity|].
    split; [exact Hr|]. unfold tops. rewrite !list_lookup_fmap.
    rewrite (lookup_seq_lt 0) by (by apply lookup_lt_Some in Hr).
    reflexivity.
Qed.

Lemma assign_topology_labels_witness :
  ∃ self', assign_topology two_atoms_engine = Ok self'
    ∧ ∀ r j, _core_idx two_atoms_engine !! r = Some j →
        ∃ a, atoms (mol two_atoms_engine) !! Z.to_nat j = Some a
           ∧ atoms (mol self') !! Z.to_nat j =
             Some (set_topology a
                     (topology_of (_topology two_atoms_engine)
                        (neighbours (within (_max_dist two_atoms_engine))
                                    two_atoms_engine r))).
Proof.
  apply (assign_topology_labels two_atoms_engine).
  - repeat constructor; simpl; lia.
  - apply (bool_decide_unpack _). reflexivity.
  - reflexivity.
  - vm_compute. discriminate.
  - reflexivity.
Defined.

(** ** The bulk filter *)

Lemma mapM_py_index_raises {A} (a : list A) (idx : list Z) e :
  mapM (py_index a) idx = Raise e → e = IndexError.
Proof.
  induction idx as [|z idx IH]; simpl; [discriminate|].
  destruct (py_index a z) as [x|e'] eqn:Hz.
  - destruct (mapM (py_index a) idx); [discriminate|]. intros [= <-]. by apply IH.
  - intros [= <-]. unfold py_index in Hz.
    repeat match type of Hz with
           | (if ?b then _ else _) = _ => destruct b
           | match ?o with Some _ => _ | None => _ end = _ => destruct o
           end; congruence.
Qed.

(** C4, on the code as it is: [remove_bulk] never returns.  When the core
    indices can be looked up in the coordinate array, the call stops at
    [np.filldiagonal], an attribute that [numpy] does not have, and
    [core_idx] is left as it was. *)
Theorem remove_bulk_always_raises `{!ArrayLib} (self : MolDissociater)
    (max_vec_len : float) :
  remove_bulk self max_vec_len = Raise (AttributeError "filldiagonal")
  ∨ remove_bulk self max_vec_len = Raise IndexError.
Proof.
  unfold remove_bulk, np_take.
  destruct (mapM (py_index (_coords self)) (_core_idx self)) as [xi|e] eqn:Hxi.
  - left. reflexivity.
  - right. apply mapM_py_index_raises in Hxi as ->. reflexivity.
Qed.

(** ** Sorting positions by key *)

Lemma np_argsort_length `{!ArrayLib} (keys : list float) :
  length (np_argsort keys) = length keys.
Proof. rewrite np_argsort_perm. apply length_seq. Qed.



Lemma np_argsort_nil `{!ArrayLib} : np_argsort [] = [].
Proof. apply Permutation_nil_r. by rewrite np_argsort_perm. Qed.




Lemma as_array_list0 value l :
  value = PySeq l ∨ value = PyIterator l →
  forallb in_int64 l = true →
  as_array value 0 = Ok (Nd1 l).
Proof.
  intros [-> | ->] Hl; unfold as_array, np_int_array; rewrite Hl; reflexivity.
Qed.

(** The anchors of a valid 1-based list, as 0-based indices. *)
Lemma anchors_zero_based (l : list Z) (n : nat) :
  forallb in_int64 l = true →
  Forall (λ z, 1 ≤ z ≤ Z.of_nat n) l →
  map (λ z, wrap64 (z - 1)) l = map (λ z, z - 1) l
  ∧ Forall (λ z, 0 ≤ z < Z.of_nat n) (map (λ z, z - 1) l).
Proof.
  intros Hint Hrange. split.
  - apply map_ext_in. intros z Hz.
    rewrite forallb_forall in Hint. specialize (Hint z Hz).
    apply in_int64_spec in Hint. apply list_elem_of_In in Hz.
    rewrite Forall_forall in Hrange. specialize (Hrange z Hz).
    apply wrap64_id. unfold int64_min, int64_max in *. lia.
  - apply Forall_fmap. eapply Forall_impl; [exact Hrange|]. simpl. intros; lia.
Qed.

Lemma hstack_ok (col : list Z) (a : list (list nat)) :
  length col = length a →
  hstack col a = Ok (zip_with (λ c row, c :: (Z.of_nat <$> row)) col a).
Proof. intros Hlen. unfold hstack. by rewrite decide_True. Qed.




(** ** The closest-N strategy, one pair per core atom *)




(** ** The distance-threshold strategy *)

Lemma combinations_length {A} (l : list A) : ∀ k,
  length (combinations l k) = choose (length l) k.
Proof.
  induction l as [|x l IH]; intros [|k]; simpl; try reflexivity.
  rewrite length_app, length_map, !IH. reflexivity.
Qed.

Lemma choose_gt (n : nat) : ∀ k, (n < k)%nat → choose n k = 0%nat.
Proof.
  induction n as [|n IH]; intros [|k] Hk; simpl; try lia.
  rewrite !IH by lia. reflexivity.
Qed.

Lemma choose_diag (n : nat) : choose n n = 1%nat.
Proof.
  induction n as [|n IH]; simpl; [reflexivity|].
  rewrite IH, choose_gt by lia. reflexivity.
Qed.

(** C2, on the code as it is.  With [ligand_count >= 1] the call never
    returns an array of integer records: the ligand entries of a row of
    [cor_lig_pairs] are the [(row, column)] tuples of [np.where], so
    [np.array] raises [ValueError] (NumPy 1.24 and later) or builds an array
    of Python objects (before), unless there is no row at all.

    On the line structure, with its core atom 1 at the origin and the
    anchors 2, 3 and 4 at the distances 5, 1 and 2, all below the threshold
    10, and two ligands asked for, the claim has the [C(3, 2) = 3] records
    of the pairs of anchors.  The code masks the anchor in place 0 (the
    diagonal of the core x anchor matrix) and builds the single row
    [(0, (0, 1), (0, 2))]. *)
Theorem get_pairs_distance_returns_no_integer_array `{!ArrayLib} :
  (∀ self lig_idx max_dist rows,
     1 ≤ ligand_count self →
     get_pairs_distance self lig_idx max_dist ≠ Ok (IntArray rows))
  ∧ (PrimFloat.ltb (anchor_dist line_engine [2; 3; 4] 0 0) 10 = true →
     PrimFloat.ltb (anchor_dist line_engine [2; 3; 4] 0 1) 10 = true →
     PrimFloat.ltb (anchor_dist line_engine [2; 3; 4] 0 2) 10 = true →
     ligand_count line_engine = 2
     ∧ get_pairs_distance line_engine (PySeq [2; 3; 4]) 10 =
       if ragged_as_object
       then Ok (ObjectArray [(0%nat, [(0%nat, 1%nat); (0%nat, 2%nat)])])
       else Raise (ValueError "setting an array element with a sequence.")).
Proof.
  split.
  - intros self lig_idx max_dist rows Hn. unfold get_pairs_distance.
    destruct (as_array lig_idx 0) as [lig|]; [|discriminate]. py_step.
    destruct (np_take (_coords self) (_core_idx self)) as [xi|]; [|discriminate].
    py_step.
    destruct (isub1 lig) as [z|j]; [destruct (py_index _ z); discriminate|].
    destruct (np_take (_coords self) j) as [xj|]; [|discriminate]. py_step.
    destruct (mapM _ _) as [groups|]; [|discriminate]. py_step.
    unfold np_array_records. destruct (concat groups); [discriminate|].
    destruct (ligand_count self =? 0) eqn:H0; [apply Z.eqb_eq in H0; lia|].
    destruct ragged_as_object; discriminate.
  - intros _ H1 H2. split; [reflexivity|].
    vm_compute in H1, H2. vm_compute. rewrite H1, H2.
    destruct ragged_as_object; vm_compute; reflexivity.
Qed.

Lemma get_pairs_distance_returns_no_integer_array_witness :
  get_pairs_distance line_engine (PySeq [2; 3; 4]) 10 =
    Raise (ValueError "setting an array element with a sequence.").
Proof.
  destruct (get_pairs_distance_returns_no_integer_array (H := binary64))
    as [_ Hline].
  destruct Hline as [_ Hcall]; [reflexivity..|].
  exact Hcall.
Defined.

(** ** The closest-N strategy, several pairs per core atom *)

Lemma lookup_concat_uniform {A} (m : nat) (bs : list (list A)) : ∀ r b k,
  Forall (λ b, length b = m) bs → bs !! r = Some b → (k < m)%nat →
  concat bs !! (r * m + k)%nat = b !! k.
Proof.
  induction bs as [|b0 bs IH]; intros r b k Hlen Hr Hk.
  - by rewrite lookup_nil in Hr.
  - apply Forall_cons in Hlen as [Hb0 Hlen]. simpl.
    destruct r as [|r]; simpl in Hr.
    + injection Hr as ->. simpl. rewrite lookup_app_l by lia. reflexivity.
    + rewrite lookup_app_r by lia.
      replace (S r * m + k - length b0)%nat with (r * m + k)%nat by lia.
      by apply IH.
Qed.

Lemma length_concat_uniform {A} (m : nat) (bs : list (list A)) :
  Forall (λ b, length b = m) bs → length (concat bs) = (length bs * m)%nat.
Proof.
  induction 1 as [|b bs Hb _ IH]; simpl; [reflexivity|].
  rewrite length_app, IH, Hb. reflexivity.
Qed.

Lemma lookup_iter_repeat {A} (core : list A) (n_pairs : Z) (r k : nat) (c : A) :
  core !! r = Some c → (k < Z.to_nat n_pairs)%nat →
  iter_repeat core n_pairs !! (r * Z.to_nat n_pairs + k)%nat = Some c.
Proof.
  intros Hr Hk. unfold iter_repeat.
  rewrite (lookup_concat_uniform (Z.to_nat n_pairs) _ r (replicate (Z.to_nat n_pairs) c)).
  - by apply lookup_replicate_2.
  - apply Forall_fmap, Forall_forall. intros x _. simpl. apply length_replicate.
  - by rewrite list_lookup_fmap, Hr.
  - done.
Qed.

Lemma combinations_gt {A} (l : list A) (k : nat) :
  (length l < k)%nat → combinations l k = [].
Proof.
  intros Hk. apply length_zero_iff_nil.
  rewrite combinations_length. by apply choose_gt.
Qed.

Lemma combinations_full {A} (l : list A) : combinations l (length l) = [l].
Proof.
  induction l as [|x l IH]; [reflexivity|].
  cbn [length combinations]. rewrite IH, combinations_gt by lia. reflexivity.
Qed.

Lemma zip_with_rows_length {A B C} (g : A → B → C) (s : nat)
    (ks : list A) : ∀ ls : list (list B),
  Forall (λ l, length l = s) ls →
  Forall (λ b, length b = s) (zip_with (λ k l, map (g k) l) ks ls).
Proof.
  induction ks as [|k ks IH]; intros [|l ls] Hls; simpl; try constructor.
  - apply Forall_cons in Hls as [Hl _]. by rewrite length_map.
  - apply IH. by apply Forall_cons in Hls as [_ ?].
Qed.

(** The branch [n_pairs > 1] with [ligand_count = 1 + n_pairs]: the pool of
    [1 + n_pairs] anchors has one subset of that size, one row per core
    atom is built, and [np.hstack] is given [n_pairs] core entries per core
    atom. *)
Lemma closest_many_full_pool `{!ArrayLib} (i : list Z) (dist : list (list float))
    (ncols : nat) (n_pairs : Z) :
  length dist = length i → i ≠ [] → 1 < n_pairs →
  (Z.to_nat (1 + n_pairs) ≤ ncols)%nat →
  closest_many i dist ncols (1 + n_pairs) n_pairs =
  Raise (ValueError "all the input array dimensions except for the concatenation axis must match exactly").
Proof.
  intros Hrows Hi Hnp Hcols. unfold closest_many, py_combinations.
  destruct (1 + n_pairs <? 0) eqn:Hneg; [apply Z.ltb_lt in Hneg; lia|]. py_step.
  destruct (1 + n_pairs =? 0) eqn:Hzero; [apply Z.eqb_eq in Hzero; lia|]. py_step.
  set (width := Z.to_nat (1 + n_pairs)) in *.
  assert (Hfull : combinations (seq 0 width) width = [seq 0 width]).
  { pose proof (combinations_full (seq 0 width)) as Hf. by rewrite length_seq in Hf. }
  rewrite Hfull.
  assert (Hcheck : forallb (forallb (λ c, (c <? Nat.min width ncols)%nat))
                           [seq 0 width] = true).
  { cbn [forallb]. rewrite andb_true_r. apply forallb_forall. intros c Hc.
    apply Nat.ltb_lt. apply in_seq in Hc. lia. }
  rewrite Hcheck. cbn [negb].
  set (idx_small := map (λ row, take width (np_argsort row)) dist).
  set (norms := map _ (zip_with (gather 0%float) dist idx_small)).
  set (idx_accept := map _ norms).
  assert (Hacc : Forall (λ l : list (list nat), length l = 1%nat) idx_accept).
  { unfold idx_accept. apply Forall_fmap, Forall_forall. intros nrow Hnrow. simpl.
    unfold gather. rewrite length_map, length_take, np_argsort_length.
    unfold norms in Hnrow. apply list_elem_of_fmap in Hnrow as (row & -> & _).
    simpl. lia. }
  assert (Hlig : Forall (λ b : list (list nat), length b = 1%nat)
            (zip_with (λ k l, map (gather 0%nat k) l) idx_small idx_accept))
    by (by apply zip_with_rows_length).
  assert (Hlen : length (zip_with (λ k l, map (gather 0%nat k) l) idx_small idx_accept)
                 = length i).
  { rewrite length_zip_with_l_eq.
    - unfold idx_small. by rewrite length_map.
    - unfold idx_accept, norms, idx_small.
      rewrite !length_map, length_zip_with_l_eq; by rewrite ?length_map. }
  destruct (zip_with _ idx_small idx_accept) as [|b bs] eqn:Hz.
  { destruct i; [done|discriminate]. }
  unfold hstack. rewrite decide_False; [reflexivity|].
  rewrite (length_concat_uniform 1 _ Hlig), Hlen.
  unfold iter_repeat. rewrite (length_concat_uniform (Z.to_nat n_pairs)).
  2:{ apply Forall_fmap, Forall_forall. intros c _. simpl. apply length_replicate. }
  rewrite length_map. destruct i; [done|]. simpl. nia.
Qed.

Lemma length_np_take {A} (a : list A) (idx : list Z) (out : list A) :
  np_take a idx = Ok out → length out = length idx.
Proof.
  unfold np_take. revert out.
  induction idx as [|c idx IH]; intros out Hout; simpl in *.
  - by injection Hout as <-.
  - destruct (py_index _ c); [|discriminate].
    destruct (mapM _ idx) as [xs|]; [|discriminate].
    injection Hout as <-. simpl. f_equal. by apply IH.
Qed.

(** C3, on the code as it is.  The docstring promises [n_pairs] sets of
    [ligand_count] ligands per core atom, and the claim takes them from a
    pool of [n_pairs + ligand_count] anchors.  The code keeps a pool of
    [1 + n_pairs] anchors whatever [ligand_count] is.  With
    [ligand_count = 1 + n_pairs] that pool has a single subset of the size
    asked for, fewer than the [n_pairs] to be selected: one row per core
    atom is built where [n_pairs] core entries wait for it, and the call
    stops in [np.hstack].  No record is returned, however many anchors there
    are. *)
Theorem get_pairs_closest_pool_too_small `{!ArrayLib} (self : MolDissociater)
    (value : pyindices) (l : list Z) (n_pairs : Z) :
  value = PySeq l ∨ value = PyIterator l →
  forallb in_int64 l = true →
  Forall (λ z, 1 ≤ z ≤ Z.of_nat (length (_coords self))) l →
  Forall (λ z, 0 ≤ z < Z.of_nat (length (_coords self))) (_core_idx self) →
  _core_idx self ≠ [] →
  1 < n_pairs →
  ligand_count self = 1 + n_pairs →
  n_pairs + ligand_count self ≤ Z.of_nat (length l) →
  py_combinations (seq 0 (Z.to_nat (1 + n_pairs))) (ligand_count self) =
    Ok [seq 0 (Z.to_nat (1 + n_pairs))]
  ∧ get_pairs_closest self value n_pairs =
    Raise (ValueError "all the input array dimensions except for the concatenation axis must match exactly").
Proof.
  intros Hv Hint Hanch Hcore Hne Hnp Hn Hlen. split.
  - unfold py_combinations. rewrite Hn.
    destruct (1 + n_pairs <? 0) eqn:Hneg; [apply Z.ltb_lt in Hneg; lia|].
    pose proof (combinations_full (seq 0 (Z.to_nat (1 + n_pairs)))) as Hf.
    rewrite length_seq in Hf. by rewrite Hf.
  - unfold get_pairs_closest.
    destruct (n_pairs <=? 0) eqn:H0; [apply Z.leb_le in H0; lia|].
    rewrite (as_array_list0 _ _ Hv Hint). py_step.
    rewrite (np_take_in_range origin) by done. py_step. cbn [isub1].
    destruct (anchors_zero_based l _ Hint Hanch) as [-> Hj].
    rewrite (np_take_in_range origin) by done. py_step.
    destruct (n_pairs =? 1) eqn:H1; [apply Z.eqb_eq in H1; lia|].
    rewrite Hn. apply closest_many_full_pool; [|done|done|].
    + unfold cdist. by rewrite !length_map.
    + rewrite length_map. lia.
Qed.

Lemma get_pairs_closest_pool_too_small_witness :
  get_pairs_closest (row_engine 3) (PySeq [2; 3; 4; 5; 6]) 2 =
    Raise (ValueError "all the input array dimensions except for the concatenation axis must match exactly").
Proof.
  apply (get_pairs_closest_pool_too_small (row_engine 3) (PySeq [2; 3; 4; 5; 6])
           [2; 3; 4; 5; 6] 2).
  - left. reflexivity.
  - reflexivity.
  - repeat constructor; simpl; lia.
  - repeat constructor; simpl; lia.
  - discriminate.
  - lia.
  - reflexivity.
  - simpl. lia.
Defined.

(** ** The combination expander *)

(** Without a substructure query the core components are the core indices
    of the engine, by position and as plain integers, whatever the first
    column of the pair array holds. *)
Lemma get_combinations_no_query `{!ArrayLib} matcher (self : MolDissociater)
    (cor_lig_pairs : list (list Z)) :
  get_combinations matcher self cor_lig_pairs None =
  Ok (until_raise
        (zip_with (_get_value (_partition_dict self))
                  (map (λ c, wrap64 (1 + c)) (_core_idx self))
                  (map (drop 1) (map (map (λ z, wrap64 (z + 1))) cor_lig_pairs)))).
Proof. reflexivity. Qed.

Lemma get_value_core pd (core : Z) (ligands : list Z) (comb : combination) :
  _get_value pd core ligands = Ok comb → comb.1 = PInt core.
Proof.
  unfold _get_value. destruct (mapM _ ligands); [|discriminate].
  by intros [= <-].
Qed.

(** C7, on the code as it is: the engine has the core atoms 1 and 2; the
    only pair record names the core atom 2 (0-based index 1).  The
    combination yielded for it has the integer 1 as core component: not a
    tuple, and not the core atom of the record. *)
Theorem get_combinations_ignores_the_record_core `{!ArrayLib} :
  _core_idx two_atoms_engine = [0; 1]
  ∧ get_combinations no_matches two_atoms_engine [[1; 0]] None =
    Ok [Ok (PInt 1, [PChain [1; 2]])].
Proof. split; vm_compute; reflexivity. Qed.

(** C8, on the code as it is.  [np.intersect1d] returns one array and the
    assignment to three targets unpacks that array.  In the first call every
    core index is in the single match, and the call raises.  In the second
    call the core index 1 is in no match, and the exception is the one of
    the unpacking, without the absent index.  In the third call the core
    index 3 is in no match, three core indices are, and nothing is raised:
    the elements of one match are returned as integers. *)
Theorem _core_neighbours_unpacks_the_intersection `{!ArrayLib} :
  _core_neighbours (λ _ _, [[0; 1]]) two_atoms_engine (Some "[Cd][Cd]") =
    Raise (ValueError "not enough values to unpack (expected 3)")
  ∧ _core_neighbours (λ _ _, [[0]]) two_atoms_engine (Some "[Cd]") =
    Raise (ValueError "not enough values to unpack (expected 3)")
  ∧ _core_neighbours (λ _ _, [[0; 1; 2]]) line_all_core (Some "[Cd]OO") =
    Ok [1; 2; 3].
Proof. repeat split; vm_compute; reflexivity. Qed.

(** ** The dissociation generator *)

Lemma mapM_getitem_obj_ints (natoms : nat) (l : list pyobj) (out : list nat) :
  mapM (mol_getitem_obj natoms) l = Ok out →
  Forall (λ o, ∃ z, o = PInt z) l.
Proof.
  revert out. induction l as [|o l IH]; intros out; [constructor|].
  simpl. destruct (mol_getitem_obj natoms o) as [p|] eqn:Ho; [|discriminate].
  destruct (mapM (mol_getitem_obj natoms) l) as [ps|] eqn:Hps; [|discriminate].
  intros _. constructor; [|by eapply IH].
  destruct o; try discriminate. eauto.
Qed.

(** C9, on the code as it is: a combination with at least one ligand group
    is never dissociated.  [mol_new[i]] wants every element of [lig_idx] to
    be an integer and [i[0]], a few lines on, wants it to be a sequence. *)
Theorem dissociate_one_raises_with_ligands (self : MolDissociater)
    (indices : list Z) (core_idx lig : pyobj) (ligs : list pyobj) :
  is_ok (dissociate_one self indices (core_idx, lig :: ligs)) = false.
Proof.
  unfold dissociate_one.
  destruct (subscript0 core_idx) as [c0|]; [|reflexivity].
  py_step.
  destruct (mol_getitem _ c0) as [core|]; [|reflexivity].
  py_step.
  destruct (iterate core_idx) as [core_items|]; [|reflexivity].
  py_step.
  destruct (mapM (mol_getitem _) core_items) as [delete_core|]; [|reflexivity].
  py_step.
  destruct (mapM (mol_getitem_obj _) (lig :: ligs)) as [delete_lig|] eqn:Hlig;
    [|reflexivity].
  py_step.
  apply mapM_getitem_obj_ints in Hlig.
  apply Forall_cons in Hlig as [[z ->] _].
  reflexivity.
Qed.

(** The same on concrete calls: a combination made by [get_combinations], a
    combination with a list of atom indices as ligand component, and one
    with a list of index lists. *)
Lemma call_examples :
  __call__ line_engine [Ok (PInt 1, [PChain [2]])] =
    [Raise (TypeError "'int' object is not subscriptable")]
  ∧ __call__ line_engine [Ok (PSeq [1], [PInt 2])] =
    [Raise (TypeError "'int' object is not subscriptable")]
  ∧ __call__ line_engine [Ok (PSeq [1], [PSeq [2]])] =
    [Raise (MoleculeError "Molecule: invalid argument inside []")]
  ∧ ∃ m, __call__ line_engine [Ok (PSeq [1], [])] = [Ok m]
         ∧ new_atoms m = drop 1 (atoms line_mol).
Proof.
  split; [vm_compute; reflexivity|]. split; [vm_compute; reflexivity|].
  split; [vm_compute; reflexivity|].
  eexists. split; vm_compute; reflexivity.
Qed.

(** * Further properties of the code *)

(** ** [as_array] and the constructor *)

(** X1: when [as_array] returns, the array holds the integers of its
    argument, unchanged and in order, all of them within 64 bits; a single
    integer gives a 0-dimensional array and a sequence or an iterator a
    1-dimensional one.  The array is never padded: the call returns only if
    that dimension already reaches [ndmin]. *)
Theorem as_array_returns_the_values (v : pyindices) (ndmin : nat) (a : ndarray) :
  as_array v ndmin = Ok a →
  nd_values a = values_of v
  ∧ ndim a = match v with PyInt _ => 0%nat | _ => 1%nat end
  ∧ (ndmin ≤ ndim a)%nat
  ∧ Forall (λ z, int64_min ≤ z ≤ int64_max) (nd_values a).
Proof.
  unfold as_array, np_int_array. intros Ha.
  assert (Hall : ∀ l, forallb in_int64 l = true →
            Forall (λ z, int64_min ≤ z ≤ int64_max) l).
  { intros l Hl. apply Forall_forall. intros z Hz. apply in_int64_spec.
    rewrite forallb_forall in Hl. apply Hl. by apply list_elem_of_In. }
  destruct v as [z|l|l].
  - destruct (in_int64 z) eqn:Hz; [|discriminate]. py_step_in Ha.
    destruct (ndim (Nd0 z) <? ndmin)%nat eqn:Hn; [discriminate|].
    injection Ha as <-. apply Nat.ltb_ge in Hn. simpl in *.
    repeat split; try done. constructor; [by apply in_int64_spec|constructor].
  - destruct (forallb in_int64 l) eqn:Hl; [|discriminate]. py_step_in Ha.
    destruct (ndim (Nd1 l) <? ndmin)%nat eqn:Hn; [discriminate|].
    injection Ha as <-. apply Nat.ltb_ge in Hn. simpl in *.
    repeat split; try done. by apply Hall.
  - destruct (forallb in_int64 l) eqn:Hl; [|discriminate]. py_step_in Ha.
    destruct (ndim (Nd1 l) <? ndmin)%nat eqn:Hn; [discriminate|].
    injection Ha as <-. apply Nat.ltb_ge in Hn. simpl in *.
    repeat split; try done. by apply Hall.
Qed.

Lemma as_array_returns_the_values_witness :
  nd_values (Nd1 [3; 1]) = values_of (PyIterator [3; 1])
  ∧ ndim (Nd1 [3; 1]) = 1%nat
  ∧ (1 ≤ ndim (Nd1 [3; 1]%Z))%nat
  ∧ Forall (λ z, int64_min ≤ z ≤ int64_max) (nd_values (Nd1 [3; 1])).
Proof.
  apply (as_array_returns_the_values (PyIterator [3; 1]) 1 (Nd1 [3; 1])).
  reflexivity.
Defined.

Lemma core_idx_setter_list (value : pyindices) (l : list Z) :
  value = PySeq l ∨ value = PyIterator l →
  forallb in_int64 l = true →
  core_idx_setter value = Ok (Nd1 (merge_sort Z.le (map (λ z, wrap64 (z - 1)) l))).
Proof.
  intros Hv Hl. unfold core_idx_setter. by rewrite (as_array_list _ _ Hv Hl).
Qed.

Lemma int64_indices_shift (l : list Z) (n : Z) :
  forallb in_int64 l = true →
  Forall (λ z, 1 ≤ z ≤ n) l →
  map (λ z, wrap64 (z - 1)) l = map (λ z, z - 1) l.
Proof.
  intros Hint Hrange. apply map_ext_in. intros z Hz.
  rewrite forallb_forall in Hint. specialize (Hint z Hz).
  apply in_int64_spec in Hint. apply list_elem_of_In in Hz.
  rewrite Forall_forall in Hrange. specialize (Hrange z Hz).
  apply wrap64_id. unfold int64_min, int64_max in *. lia.
Qed.

(** X2: the constructor, given a sequence or an iterator of 64-bit indices
    and an explicit [max_dist], returns an engine whose coordinate array has
    one row per atom of the molecule, whose [core_idx] is sorted ascending
    and is a rearrangement of the given indices each decreased by one, whose
    partition dictionary is the one [partition_mol] computes, and whose
    topology mapping is empty when none is given.  When the given indices are
    distinct and lie in [[1, number of atoms]], the stored ones are distinct
    and lie in [[0, number of atoms)]. *)
Theorem init_establishes_the_engine guess (m : Molecule) (value : pyindices)
    (l : list Z) (lig_count : Z) (max_dist : float) (topology : option (gmap Z string)) :
  value = PySeq l ∨ value = PyIterator l →
  forallb in_int64 l = true →
  ∃ self, __init__ guess m value lig_count (Some max_dist) topology = Ok self
    ∧ mol self = m
    ∧ ligand_count self = lig_count
    ∧ _max_dist self = max_dist
    ∧ _topology self = default ∅ topology
    ∧ _coords self = map coords (atoms m)
    ∧ length (_coords self) = length (atoms (mol self))
    ∧ _partition_dict self = partition_mol self None
    ∧ StronglySorted Z.le (_core_idx self)
    ∧ _core_idx self ≡ₚ map (λ z, wrap64 (z - 1)) l
    ∧ (Forall (λ z, 1 ≤ z ≤ Z.of_nat (length (atoms m))) l → NoDup l →
         Forall (λ z, 0 ≤ z < Z.of_nat (length (atoms (mol self)))) (_core_idx self)
         ∧ NoDup (_core_idx self)).
Proof.
  intros Hv Hl. unfold __init__.
  rewrite (core_idx_setter_list _ _ Hv Hl). py_step.
  eexists. split; [reflexivity|]. cbn.
  assert (Hperm : merge_sort Z.le (map (λ z, wrap64 (z - 1)) l)
                    ≡ₚ map (λ z, wrap64 (z - 1)) l)
    by apply merge_sort_Permutation.
  repeat (split; [reflexivity|]).
  split; [unfold mol_as_array; by rewrite length_map|].
  split; [reflexivity|].
  split; [apply StronglySorted_merge_sort; apply _|].
  split; [exact Hperm|].
  intros Hrange Hnd. rewrite Hperm, (int64_indices_shift l _ Hl Hrange). split.
  - apply Forall_fmap. eapply Forall_impl; [exact Hrange|]. simpl. intros; lia.
  - apply (NoDup_fmap_2_strong (λ z, z - 1)); [|done]. intros x y _ _. lia.
Qed.

Lemma init_establishes_the_engine_witness :
  ∃ self, __init__ (λ _ _, 0%float) line_mol (PySeq [4; 2]) 1 (Some 3%float) None = Ok self
    ∧ mol self = line_mol
    ∧ length (_coords self) = length (atoms (mol self))
    ∧ StronglySorted Z.le (_core_idx self).
Proof.
  destruct (init_establishes_the_engine (λ _ _, 0%float) line_mol (PySeq [4; 2])
              [4; 2] 1 3%float None)
    as (self & Hinit & Hmol & _ & _ & _ & _ & Hlen & _ & Hsorted & _).
  - left. reflexivity.
  - reflexivity.
  - exists self. repeat split; assumption.
Defined.

(** X3: without [max_dist], the threshold is the estimate for one atom, and
    that atom is the core atom with the smallest index: for a non-empty
    sequence or iterator of valid 1-based indices the constructor returns an
    engine whose [max_dist] is [guess_core_core_dist(mol, mol[z])], [z]
    being the least of the given indices. *)
Theorem init_guesses_from_the_first_core_atom guess (m : Molecule)
    (value : pyindices) (l : list Z) (lig_count : Z)
    (topology : option (gmap Z string)) :
  value = PySeq l ∨ value = PyIterator l →
  forallb in_int64 l = true →
  Forall (λ z, 1 ≤ z ≤ Z.of_nat (length (atoms m))) l →
  l ≠ [] →
  ∃ self z a, __init__ guess m value lig_count None topology = Ok self
    ∧ z ∈ l ∧ (∀ z', z' ∈ l → z ≤ z')
    ∧ atoms m !! Z.to_nat (z - 1) = Some a
    ∧ _max_dist self = guess m a.
Proof.
  intros Hv Hl Hrange Hne. unfold __init__.
  rewrite (core_idx_setter_list _ _ Hv Hl). py_step.
  rewrite (int64_indices_shift l _ Hl Hrange).
  set (s := merge_sort Z.le (map (λ z, z - 1) l)).
  assert (Hperm : s ≡ₚ map (λ z, z - 1) l) by apply merge_sort_Permutation.
  assert (Hsorted : StronglySorted Z.le s)
    by (apply StronglySorted_merge_sort; apply _).
  destruct s as [|c0 s'] eqn:Hs.
  { apply Permutation_nil_l in Hperm. destruct l; [done|discriminate]. }
  assert (Hc0 : c0 ∈ map (λ z, z - 1) l) by (rewrite <- Hperm; left).
  apply list_elem_of_fmap in Hc0 as (z & -> & Hz).
  assert (Hzr : 1 ≤ z ≤ Z.of_nat (length (atoms m))).
  { rewrite Forall_forall in Hrange. by apply Hrange. }
  rewrite (py_index_in_range 0) by (simpl; lia). simpl nth. py_step.
  rewrite mol_getitem_in_range by lia. py_step.
  destruct (atoms m !! Z.to_nat (z - 1)) as [a|] eqn:Ha;
    [|apply lookup_ge_None in Ha; lia].
  py_step. eexists _, z, a. split; [reflexivity|].
  split; [done|]. split; [|done].
  intros z' Hz'.
  assert (Hin : z' - 1 ∈ (z - 1) :: s').
  { rewrite Hperm. apply list_elem_of_fmap. by exists z'. }
  apply StronglySorted_cons in Hsorted as [Hall _].
  apply elem_of_cons in Hin as [Heq|Hin]; [lia|].
  rewrite Forall_forall in Hall. specialize (Hall _ Hin). lia.
Qed.

Lemma init_guesses_from_the_first_core_atom_witness :
  ∃ self z a, __init__ (λ _ a, (coords a).1.1) line_mol (PySeq [4; 2]) 1 None None
                = Ok self
    ∧ z ∈ [4; 2] ∧ (∀ z', z' ∈ [4; 2] → z ≤ z')
    ∧ atoms line_mol !! Z.to_nat (z - 1) = Some a
    ∧ _max_dist self = (λ (_ : Molecule) a, (coords a).1.1) line_mol a.
Proof.
  apply (init_guesses_from_the_first_core_atom (λ _ a, (coords a).1.1) line_mol
           (PySeq [4; 2]) [4; 2] 1 None).
  - left. reflexivity.
  - reflexivity.
  - repeat constructor; simpl; lia.
  - discriminate.
Defined.

(** X4: the constructor does not accept what its signature also offers: a
    single integer as [core_idx] always raises, and so does an empty
    collection of indices when [max_dist] is to be guessed
    ([IndexError], from [core_idx[0]]). *)
Theorem init_rejects_an_integer_and_an_empty_core guess (m : Molecule)
    (lig_count : Z) (topology : option (gmap Z string)) :
  (∀ z max_dist,
     is_ok (__init__ guess m (PyInt z) lig_count max_dist topology) = false)
  ∧ __init__ guess m (PySeq []) lig_count None topology = Raise IndexError
  ∧ __init__ guess m (PyIterator []) lig_count None topology = Raise IndexError.
Proof.
  split; [|split; reflexivity].
  intros z max_dist. unfold __init__, core_idx_setter, as_array.
  destruct (in_int64 z); reflexivity.
Qed.

(** ** The pairing strategies at the edges *)

(** X5: a single integer as [lig_idx], which the signatures of both
    strategies offer, never gives a result: the anchor coordinates are then
    a vector, not a matrix, and [cdist] rejects them (when nothing else has
    raised before). *)
Theorem pairs_reject_a_single_integer `{!ArrayLib} (self : MolDissociater) (z : Z) :
  (∀ n_pairs, is_ok (get_pairs_closest self (PyInt z) n_pairs) = false)
  ∧ (∀ max_dist, is_ok (get_pairs_distance self (PyInt z) max_dist) = false).
Proof.
  split.
  - intros n_pairs. unfold get_pairs_closest, as_array.
    destruct (n_pairs <=? 0); [reflexivity|].
    destruct (in_int64 z); [|reflexivity]. py_step.
    change (ndim (Nd0 z) <? 0)%nat with false. cbv iota. py_step.
    destruct (np_take _ _); [|reflexivity]. py_step. cbn [isub1].
    destruct (py_index _ _); reflexivity.
  - intros max_dist. unfold get_pairs_distance, as_array.
    destruct (in_int64 z); [|reflexivity]. py_step.
    change (ndim (Nd0 z) <? 0)%nat with false. cbv iota. py_step.
    destruct (np_take _ _); [|reflexivity]. py_step. cbn [isub1].
    destruct (py_index _ _); reflexivity.
Qed.

Lemma concat_all_nil {A} (ls : list (list A)) :
  Forall (λ l, l = []) ls → concat ls = [].
Proof. induction 1 as [|l ls -> _ IH]; simpl; [reflexivity|exact IH]. Qed.

(** X6: with an empty collection of anchors and valid core indices, the
    closest-N strategy with [n_pairs = 1] returns one record per core atom
    that holds the core index alone, and the distance strategy returns no
    record, whatever the threshold and [ligand_count]. *)
Theorem pairs_without_anchors `{!ArrayLib} (self : MolDissociater)
    (value : pyindices) :
  value = PySeq [] ∨ value = PyIterator [] →
  Forall (λ z, 0 ≤ z < Z.of_nat (length (_coords self))) (_core_idx self) →
  get_pairs_closest self value 1 = Ok (map (λ c, [c]) (_core_idx self))
  ∧ ∀ max_dist, get_pairs_distance self value max_dist = Ok EmptyFloatArray.
Proof.
  intros Hv Hcore. split.
  - unfold get_pairs_closest. change (1 <=? 0) with false. cbv iota.
    rewrite (as_array_list0 _ [] Hv eq_refl). py_step.
    rewrite (np_take_in_range origin) by done. py_step. cbn [isub1 map].
    change (np_take (_coords self) []) with (Ok (@nil point)). py_step.
    change (1 =? 1) with true. cbv iota.
    unfold cdist. rewrite !map_map. cbn [map]. rewrite np_argsort_nil.
    rewrite hstack_ok by (by rewrite !length_map).
    f_equal. induction (_core_idx self) as [|c core IH]; [reflexivity|].
    simpl. f_equal. apply IH. by apply Forall_cons in Hcore as [_ ?].
  - intros max_dist. unfold get_pairs_distance.
    rewrite (as_array_list0 _ [] Hv eq_refl). py_step.
    rewrite (np_take_in_range origin) by done. py_step. cbn [isub1 map].
    change (np_take (_coords self) []) with (Ok (@nil point)). py_step.
    rewrite (np_where2_filled PrimFloat.ltb). cbn [length seq].
    rewrite concat_all_nil; [reflexivity|].
    apply Forall_forall. intros hits Hhits.
    apply list_elem_of_lookup in Hhits as [r Hr].
    rewrite list_lookup_imap in Hr.
    destruct (_ !! r); [|discriminate]. by injection Hr as <-.
Qed.

Lemma pairs_without_anchors_witness :
  get_pairs_closest line_engine (PyIterator []) 1 = Ok (map (λ c, [c]) (_core_idx line_engine))
  ∧ ∀ max_dist, get_pairs_distance line_engine (PyIterator []) max_dist
                = Ok EmptyFloatArray.
Proof.
  apply (pairs_without_anchors line_engine (PyIterator [])).
  - right. reflexivity.
  - repeat constructor; simpl; lia.
Defined.




Lemma choose_le_one (m k : nat) : (m ≤ k)%nat → (choose m k ≤ 1)%nat.
Proof.
  intros Hk. destruct (decide (m = k)) as [->|Hne].
  - by rewrite choose_diag.
  - rewrite choose_gt by lia. lia.
Qed.

(** The branch [n_pairs > 1] with a [ligand_count] outside [[1, n_pairs]]. *)
Lemma closest_many_bad_count `{!ArrayLib} (i : list Z) (dist : list (list float))
    (ncols : nat) (n n_pairs : Z) :
  length dist = length i → 1 < n_pairs → ¬ (1 ≤ n ≤ n_pairs) →
  is_ok (closest_many i dist ncols n n_pairs) = false.
Proof.
  intros Hrows Hnp Hn. unfold closest_many, py_combinations.
  destruct (n <? 0) eqn:Hneg; [reflexivity|]. apply Z.ltb_ge in Hneg. py_step.
  destruct (n =? 0) eqn:Hzero; [reflexivity|]. apply Z.eqb_neq in Hzero. py_step.
  set (width := Z.to_nat (1 + n_pairs)).
  set (combine := combinations (seq 0 width) (Z.to_nat n)).
  destruct (negb _); [reflexivity|].
  set (idx_small := map (λ row, take width (np_argsort row)) dist).
  set (norms := map _ (zip_with (gather 0%float) dist idx_small)).
  set (idx_accept := map _ norms).
  set (s := Nat.min (Z.to_nat n_pairs) (length combine)).
  assert (Hs : (s < Z.to_nat n_pairs)%nat).
  { unfold s, combine. rewrite combinations_length, length_seq.
    pose proof (choose_le_one width (Z.to_nat n) ltac:(lia)). lia. }
  assert (Hacc : Forall (λ l : list (list nat), length l = s) idx_accept).
  { unfold idx_accept. apply Forall_fmap, Forall_forall. intros nrow Hnrow. simpl.
    unfold gather. rewrite length_map, length_take, np_argsort_length.
    unfold norms in Hnrow. apply list_elem_of_fmap in Hnrow as (row & -> & _).
    by rewrite length_map. }
  assert (Hlig : Forall (λ b : list (list nat), length b = s)
            (zip_with (λ k l, map (gather 0%nat k) l) idx_small idx_accept))
    by (by apply zip_with_rows_length).
  assert (Hlen : length (zip_with (λ k l, map (gather 0%nat k) l) idx_small idx_accept)
                 = length i).
  { rewrite length_zip_with_l_eq.
    - unfold idx_small. by rewrite length_map.
    - unfold idx_accept, norms, idx_small.
      rewrite !length_map, length_zip_with_l_eq; by rewrite ?length_map. }
  destruct (zip_with _ idx_small idx_accept) as [|b bs] eqn:Hz; [reflexivity|].
  unfold hstack. rewrite decide_False; [reflexivity|].
  rewrite (length_concat_uniform s _ Hlig), Hlen.
  unfold iter_repeat. rewrite (length_concat_uniform (Z.to_nat n_pairs)).
  2:{ apply Forall_fmap, Forall_forall. intros c _. simpl. apply length_replicate. }
  rewrite length_map. simpl in Hlen. nia.
Qed.

(** X8: with [n_pairs > 1] the closest-N strategy returns only when
    [1 <= ligand_count <= n_pairs]: for any other [ligand_count] every call
    raises, whatever the structure, the core indices and the anchors. *)
Theorem get_pairs_closest_needs_count_in_range `{!ArrayLib} (self : MolDissociater)
    (value : pyindices) (n_pairs : Z) :
  1 < n_pairs →
  ¬ (1 ≤ ligand_count self ≤ n_pairs) →
  is_ok (get_pairs_closest self value n_pairs) = false.
Proof.
  intros Hnp Hn. unfold get_pairs_closest.
  destruct (n_pairs <=? 0); [reflexivity|].
  destruct (as_array value 0) as [lig|]; [|reflexivity]. py_step.
  destruct (np_take (_coords self) (_core_idx self)) as [xi|] eqn:Hxi; [|reflexivity].
  py_step.
  destruct (isub1 lig) as [z|j].
  - destruct (py_index _ z); reflexivity.
  - destruct (np_take (_coords self) j) as [xj|]; [|reflexivity]. py_step.
    destruct (n_pairs =? 1) eqn:H1; [apply Z.eqb_eq in H1; lia|].
    apply closest_many_bad_count; [|done|done].
    unfold cdist. rewrite length_map. by apply length_np_take in Hxi.
Qed.

Lemma get_pairs_closest_needs_count_in_range_witness :
  is_ok (get_pairs_closest (row_engine 3) (PySeq [2; 3; 4; 5; 6]) 2) = false.
Proof.
  apply (get_pairs_closest_needs_count_in_range (row_engine 3)
           (PySeq [2; 3; 4; 5; 6]) 2).
  - lia.
  - simpl. lia.
Defined.

(** ** [assign_topology]: what it changes and what it keeps *)

Lemma same_but_label_refl (a : Atom) : same_but_label a a.
Proof. by repeat split. Qed.

Lemma same_but_label_set (a a' : Atom) (t : string) :
  same_but_label a a' → same_but_label a (set_topology a' t).
Proof. intros (? & ? & ? & ?). by repeat split. Qed.

Lemma write_loop_same (items : list (Z * string)) : ∀ (l : list Atom) p a,
  l !! p = Some a →
  ∃ a', foldl (λ l jt, alter (λ a, set_topology a jt.2) (Z.to_nat jt.1) l) l items
          !! p = Some a'
        ∧ same_but_label a a'.
Proof.
  induction items as [|[j t] items IH]; intros l p a Hp; simpl.
  - exists a. split; [done|apply same_but_label_refl].
  - destruct (decide (Z.to_nat j = p)) as [<-|Hne].
    + destruct (IH (alter (λ a, set_topology a t) (Z.to_nat j) l) (Z.to_nat j)
                   (set_topology a t)) as (a' & Ha' & (? & ? & ? & ?)).
      { by rewrite list_lookup_alter_eq, Hp. }
      exists a'. split; [done|]. by repeat split.
    + apply IH. by rewrite list_lookup_alter_ne.
Qed.

Lemma write_loop_length (items : list (Z * string)) : ∀ l : list Atom,
  length (foldl (λ l jt, alter (λ a, set_topology a jt.2) (Z.to_nat jt.1) l) l items)
  = length l.
Proof.
  induction items as [|[j t] items IH]; intros l; simpl; [reflexivity|].
  by rewrite IH, length_alter.
Qed.

(** X9: on valid core indices [assign_topology] changes topology labels and
    nothing else.  The engine keeps its core indices, ligand count,
    threshold, topology mapping, coordinate array and partition dictionary;
    the molecule keeps its number of atoms and its [indices] property; every
    atom keeps its coordinates, atomic number, residue number and anchor
    flag; and an atom that is not a core atom is not touched at all. *)
Theorem assign_topology_only_writes_labels `{!ArrayLib} (self : MolDissociater) :
  Forall (λ z, 0 ≤ z < Z.of_nat (length (atoms (mol self)))) (_core_idx self) →
  length (_coords self) = length (atoms (mol self)) →
  Z.of_nat (length (_core_idx self)) ≤ int64_max →
  ∃ self', assign_topology self = Ok self'
    ∧ _core_idx self' = _core_idx self
    ∧ ligand_count self' = ligand_count self
    ∧ _max_dist self' = _max_dist self
    ∧ _topology self' = _topology self
    ∧ _coords self' = _coords self
    ∧ _partition_dict self' = _partition_dict self
    ∧ prop_indices (mol self') = prop_indices (mol self)
    ∧ length (atoms (mol self')) = length (atoms (mol self))
    ∧ ∀ p a, atoms (mol self) !! p = Some a →
        ∃ a', atoms (mol self') !! p = Some a'
              ∧ same_but_label a a'
              ∧ (Z.of_nat p ∉ _core_idx self → a' = a).
Proof.
  intros Hrange Hcoords Hlen.
  rewrite (assign_topology_result self Hrange Hcoords).
  eexists. split; [reflexivity|]. cbn [with_mol mol atoms prop_indices _core_idx
    ligand_count _max_dist _topology _coords _partition_dict].
  repeat (split; [reflexivity|]).
  split; [apply write_loop_length|].
  intros p a Hp.
  destruct (write_loop_same (zip (_core_idx self) (computed_topology self))
              _ p a Hp) as (a' & Ha' & Hsame).
  exists a'. split; [exact Ha'|]. split; [exact Hsame|].
  intros Hnot. rewrite write_loop_other in Ha'; [congruence|].
  intros [j t] Hin Heq. cbn [fst] in Heq. apply Hnot.
  apply elem_of_zip_l in Hin.
  rewrite Forall_forall in Hrange. specialize (Hrange _ Hin).
  by replace (Z.of_nat p) with j by lia.
Qed.

Lemma assign_topology_only_writes_labels_witness :
  ∃ self', assign_topology line_engine = Ok self'
    ∧ _core_idx self' = _core_idx line_engine
    ∧ _coords self' = _coords line_engine
    ∧ length (atoms (mol self')) = length (atoms (mol line_engine)).
Proof.
  destruct (assign_topology_only_writes_labels line_engine)
    as (self' & H1 & H2 & _ & _ & _ & H3 & _ & _ & H4 & _).
  - repeat constructor; simpl; lia.
  - reflexivity.
  - vm_compute. discriminate.
  - exists self'. repeat split; assumption.
Defined.

Lemma set_topology_twice (a : Atom) (t : string) :
  set_topology (set_topology a t) t = set_topology a t.
Proof. reflexivity. Qed.

Lemma write_loop_idempotent (items : list (Z * string)) (l : list Atom) :
  Forall (λ jt, 0 ≤ jt.1) items → NoDup items.*1 →
  foldl (λ l jt, alter (λ a, set_topology a jt.2) (Z.to_nat jt.1) l)
        (foldl (λ l jt, alter (λ a, set_topology a jt.2) (Z.to_nat jt.1) l) l items)
        items
  = foldl (λ l jt, alter (λ a, set_topology a jt.2) (Z.to_nat jt.1) l) l items.
Proof.
  intros Hpos Hnd. apply list_eq. intros p.
  destruct (decide (p ∈ map (λ jt : Z * string, Z.to_nat jt.1) items)) as [Hin|Hout].
  - apply list_elem_of_fmap in Hin as ([j t] & -> & Hjt). cbn [fst].
    apply list_elem_of_lookup in Hjt as [r Hr].
    rewrite !(write_loop_written items r j t) by done.
    destruct (l !! Z.to_nat j); reflexivity.
  - rewrite write_loop_other; [reflexivity|].
    intros jt Hjt Heq. apply Hout. apply list_elem_of_fmap. by exists jt.
Qed.

(** X10: [assign_topology] is idempotent on valid, distinct core indices: a
    second call on the engine that the first call returns succeeds and
    returns that same engine.  The labels depend on the coordinate array
    and on the core indices, which the first call leaves alone. *)
Theorem assign_topology_idempotent `{!ArrayLib} (self self' : MolDissociater) :
  Forall (λ z, 0 ≤ z < Z.of_nat (length (atoms (mol self)))) (_core_idx self) →
  NoDup (_core_idx self) →
  length (_coords self) = length (atoms (mol self)) →
  Z.of_nat (length (_core_idx self)) ≤ int64_max →
  assign_topology self = Ok self' →
  assign_topology self' = Ok self'.
Proof.
  intros Hrange Hnd Hcoords Hlen.
  rewrite (assign_topology_result self Hrange Hcoords). intros [= <-].
  rewrite assign_topology_result.
  - cbn [with_mol mol atoms prop_indices _core_idx ligand_count _max_dist
           _topology _coords _partition_dict].
    change (computed_topology (with_mol self _)) with (computed_topology self).
    unfold with_mol. f_equal. f_equal. f_equal.
    apply write_loop_idempotent.
    + apply Forall_forall. intros [j t] Hin. cbn [fst].
      apply elem_of_zip_l in Hin.
      rewrite Forall_forall in Hrange. specialize (Hrange _ Hin). lia.
    + rewrite fst_zip; [done|]. apply computed_topology_length.
  - cbn [with_mol mol atoms _core_idx]. by rewrite write_loop_length.
  - cbn [with_mol mol atoms _coords]. by rewrite write_loop_length.
Qed.

Lemma assign_topology_idempotent_witness :
  assign_topology two_atoms_labelled = Ok two_atoms_labelled.
Proof.
  apply (assign_topology_idempotent two_atoms_engine two_atoms_labelled).
  - repeat constructor; simpl; lia.
  - apply (bool_decide_unpack _). reflexivity.
  - reflexivity.
  - vm_compute. discriminate.
  - vm_compute. reflexivity.
Defined.

Lemma py_index_wraps {A} (d : A) (l : list A) (k : Z) :
  - Z.of_nat (length l) ≤ k < 0 →
  py_index l k = Ok (nth (Z.to_nat (Z.of_nat (length l) + k)) l d).
Proof.
  intros Hk. unfold py_index.
  destruct (0 <=? k) eqn:H0; [apply Z.leb_le in H0; lia|].
  destruct (0 <=? Z.of_nat (length l) + k) eqn:H1; [|apply Z.leb_gt in H1; lia].
  destruct (Z.of_nat (length l) + k <? Z.of_nat (length l)) eqn:H2;
    [|apply Z.ltb_ge in H2; lia].
  simpl. destruct (l !! _) as [x|] eqn:Hl.
  - f_equal. symmetry. by apply nth_lookup_Some with (d := d) in Hl.
  - apply lookup_ge_None in Hl. lia.
Qed.

Lemma bincount_nonempty (x : list nat) (k : nat) :
  ∃ c cs, bincount x (S k) = c :: cs.
Proof.
  unfold bincount. destruct x as [|y x].
  - simpl. eauto.
  - destruct (Nat.max (S k) (S (max_list (y :: x)))) as [|size] eqn:Hs; [lia|].
    simpl. eauto.
Qed.

(** X11: the index 0 among the 1-based core indices is not refused by the
    setter, which stores it as [-1]; the coordinate lookups of
    [assign_topology] then read the last atom, and the loop that writes the
    labels asks the molecule for atom [0]: [assign_topology] raises
    [MoleculeError].  (The setter sorts, so [-1] comes first.) *)
Theorem assign_topology_rejects_index_zero `{!ArrayLib} (self : MolDissociater)
    (rest : list Z) :
  _core_idx self = -1 :: rest →
  Forall (λ z, 0 ≤ z < Z.of_nat (length (_coords self))) rest →
  (0 < length (_coords self))%nat →
  assign_topology self =
  Raise (MoleculeError "Numbering of atoms starts with 1").
Proof.
  intros Hcore Hrest Hn. unfold assign_topology. rewrite Hcore.
  unfold np_take. cbn [mapM].
  rewrite (py_index_wraps origin) by lia.
  fold (np_take (_coords self) rest).
  rewrite (np_take_in_range origin) by done. py_step.
  cbn [length].
  destruct (bincount_nonempty
              (np_where2 (map (map (λ d, (d <=? _max_dist self)%float))
                 (fill_diagonal
                    (cdist
                       (nth (Z.to_nat (Z.of_nat (length (_coords self)) + -1))
                            (_coords self) origin
                        :: map (λ z, nth (Z.to_nat z) (_coords self) origin) rest)
                       (nth (Z.to_nat (Z.of_nat (length (_coords self)) + -1))
                            (_coords self) origin
                        :: map (λ z, nth (Z.to_nat z) (_coords self) origin) rest))
                    (_max_dist self)))).*1
              (length rest)) as (c & cs & ->).
  reflexivity.
Qed.

Lemma assign_topology_rejects_index_zero_witness :
  core_idx_setter (PySeq [0; 2]) = Ok (Nd1 (_core_idx line_zero_core))
  ∧ assign_topology line_zero_core =
    Raise (MoleculeError "Numbering of atoms starts with 1").
Proof.
  split; [reflexivity|].
  apply (assign_topology_rejects_index_zero line_zero_core [1]).
  - reflexivity.
  - repeat constructor; simpl; lia.
  - simpl. lia.
Defined.

(** ** The substructure expansion and its diagnostic *)

Lemma elem_of_intersect1d (a b : list Z) (x : Z) :
  x ∈ intersect1d a b ↔ x ∈ a ∧ x ∈ b.
Proof.
  unfold intersect1d.
  rewrite merge_sort_Permutation, elem_of_remove_dups, list_elem_of_filter. tauto.
Qed.

Lemma length_remove_dups_le {A} `{EqDecision A} (l : list A) :
  (length (remove_dups l) ≤ length l)%nat.
Proof.
  induction l as [|x l IH]; simpl; [lia|].
  destruct (decide_rel elem_of x l); simpl; lia.
Qed.

Lemma length_intersect1d (a b : list Z) :
  (length (intersect1d a b) ≤ length a)%nat.
Proof.
  unfold intersect1d. rewrite merge_sort_Permutation.
  pose proof (length_remove_dups_le (filter (λ x, x ∈ b) a)).
  pose proof (length_filter (λ x, x ∈ b) a). lia.
Qed.

Lemma py_index_raises {A} (l : list A) (k : Z) e :
  py_index l k = Raise e → e = IndexError.
Proof.
  unfold py_index.
  repeat match goal with
         | |- context [if ?b then _ else _] => destruct b
         | |- context [match ?o with Some _ => _ | None => _ end] => destruct o
         end; congruence.
Qed.

Lemma py_index_elem {A} (l : list A) (k : Z) (x : A) :
  py_index l k = Ok x → x ∈ l.
Proof.
  unfold py_index. destruct (_ && _); [|discriminate].
  destruct (l !! _) as [y|] eqn:Hy; [|discriminate].
  intros [= <-]. apply list_elem_of_lookup. eauto.
Qed.

(** X12: [_core_neighbours] never raises the exception that [_ValueError]
    builds.  The test before the [raise] asks whether the first target of
    the unpacking, the least common index, differs from every core index;
    a common index is a core index, so the test fails whenever it is
    reached. *)
Theorem _core_neighbours_never_reports_absent_atoms `{!ArrayLib}
    (matcher : Molecule → string → list (list Z)) (self : MolDissociater)
    (smiles : option string) (s : string) (diff : string) :
  _core_neighbours matcher self smiles ≠ Raise (AbsentAtoms s diff).
Proof.
  unfold _core_neighbours. destruct smiles as [q|]; [|discriminate].
  destruct (intersect1d _ _) as [|x [|y [|z [|w rest]]]] eqn:Hint; try discriminate.
  assert (Hx : x ∈ _core_idx self).
  { apply (elem_of_intersect1d _ (concat (matcher (mol self) q))).
    rewrite Hint. left. }
  destruct (forallb (λ c, negb (x =? c)) (_core_idx self)) eqn:Hall.
  - rewrite forallb_forall in Hall. apply list_elem_of_In in Hx.
    specialize (Hall _ Hx). by rewrite Z.eqb_refl in Hall.
  - destruct (matcher (mol self) q) as [|m0 ms]; [discriminate|]. py_step.
    destruct (py_index _ _) as [row|e] eqn:Hrow; [discriminate|].
    apply py_index_raises in Hrow as ->. discriminate.
Qed.

(** X13: with a query, [_core_neighbours] returns only when exactly three
    distinct core indices occur in the matches, so an engine needs at least
    three core atoms; what it returns is then a single match, its atom
    indices increased by one. *)
Theorem _core_neighbours_returns_one_match `{!ArrayLib}
    (matcher : Molecule → string → list (list Z)) (self : MolDissociater)
    (smiles : string) (out : list Z) :
  _core_neighbours matcher self (Some smiles) = Ok out →
  length (intersect1d (_core_idx self) (concat (matcher (mol self) smiles))) = 3%nat
  ∧ (3 ≤ length (_core_idx self))%nat
  ∧ ∃ row, row ∈ matcher (mol self) smiles
           ∧ out = map (λ z, wrap64 (z + 1)) row.
Proof.
  unfold _core_neighbours.
  pose proof (length_intersect1d (_core_idx self)
                (concat (matcher (mol self) smiles))) as Hlen.
  destruct (intersect1d _ _) as [|x [|y [|z [|w rest]]]] eqn:Hint; try discriminate.
  destruct (forallb _ _); [discriminate|].
  destruct (matcher (mol self) smiles) as [|m0 ms] eqn:Hm; [discriminate|]. py_step.
  destruct (py_index _ _) as [row|] eqn:Hrow; [|discriminate]. py_step.
  intros [= <-]. simpl in Hlen. split; [reflexivity|]. split; [lia|].
  exists row. split; [|reflexivity]. by apply py_index_elem in Hrow.
Qed.

Lemma _core_neighbours_returns_one_match_witness :
  length (intersect1d (_core_idx line_all_core)
            (concat ((λ _ _, [[0; 1; 2]]) (mol line_all_core) "[Cd]OO"))) = 3%nat
  ∧ (3 ≤ length (_core_idx line_all_core))%nat
  ∧ ∃ row, row ∈ (λ (_ : Molecule) (_ : string), [[0; 1; 2]]) (mol line_all_core) "[Cd]OO"
           ∧ [1; 2; 3] = map (λ z, wrap64 (z + 1)) row.
Proof.
  apply (_core_neighbours_returns_one_match (λ _ _, [[0; 1; 2]]) line_all_core
           "[Cd]OO" [1; 2; 3]).
  vm_compute. reflexivity.
Defined.

(** ** The dissociation generator, beyond the first step *)




Lemma mol_getitem_one_based (natoms : nat) (z : Z) :
  1 ≤ z ≤ Z.of_nat natoms → mol_getitem natoms z = Ok (Z.to_nat (z - 1)).
Proof.
  intros Hz. replace z with (1 + (z - 1)) at 1 by lia.
  apply mol_getitem_in_range. lia.
Qed.

Lemma delete_atoms_filter (targets : list nat) : ∀ tagged : list (nat * Atom),
  NoDup targets → (∀ t, t ∈ targets → t ∈ tagged.*1) →
  delete_atoms tagged targets = Ok (filter (λ p, p.1 ∉ targets) tagged).
Proof.
  induction targets as [|t ts IH]; intros tagged Hnd Hsub; simpl.
  - f_equal. symmetry. induction tagged as [|p tagged IHt]; [reflexivity|].
    rewrite filter_cons_True by apply not_elem_of_nil. f_equal. apply IHt.
    intros t Ht. by apply elem_of_nil in Ht.
  - apply NoDup_cons in Hnd as [Ht Hnd].
    rewrite decide_True by (apply Hsub; left).
    rewrite IH; [|done|].
    + f_equal. rewrite list_filter_filter. apply filter_ext_elem.
      intros p _. rewrite not_elem_of_cons. tauto.
    + intros t' Ht'. assert (t' ≠ t) by (intros ->; done).
      specialize (Hsub t' ltac:(by right)).
      apply list_elem_of_fmap in Hsub as (p & -> & Hp).
      apply list_elem_of_fmap. exists p. split; [done|].
      apply list_elem_of_filter. split; [|done]. simpl. congruence.
Qed.

(** X16: a combination without ligand groups is dissociated.  For a
    non-empty list of distinct, valid 1-based core indices the loop body
    returns a molecule that holds the atoms whose index is not in the list,
    in their order, with the given [indices], an empty [lig_residue] and the
    label ["<topology of the first core atom>_<its index>"]; for a first
    core atom without topology label, that part of the label is the text of
    the empty [Settings] that reading the label creates. *)
Theorem dissociate_one_without_ligands (self : MolDissociater)
    (indices : list Z) (c0 : Z) (rest : list Z) :
  Forall (λ z, 1 ≤ z ≤ Z.of_nat (length (atoms (mol self)))) (c0 :: rest) →
  NoDup (c0 :: rest) →
  ∃ d a0, dissociate_one self indices (PSeq (c0 :: rest), []) = Ok d
    ∧ new_atoms d =
      (filter (λ p, Z.of_nat p.1 + 1 ∉ c0 :: rest) (imap pair (atoms (mol self)))).*2
    ∧ s_indices d = indices
    ∧ s_lig_residue d = []
    ∧ atoms (mol self) !! Z.to_nat (c0 - 1) = Some a0
    ∧ s_core_topology d =
      default "<empty Settings>" (topology_label a0) +:+ "_" +:+ string_of_Z c0.
Proof.
  intros Hrange Hnd. unfold dissociate_one.
  set (n := length (atoms (mol self))) in *.
  assert (Hc0 : 1 ≤ c0 ≤ Z.of_nat n) by (by apply Forall_cons in Hrange as [? _]).
  cbn [subscript0]. rewrite (py_index_in_range 0) by (simpl; lia).
  change (nth (Z.to_nat 0) (c0 :: rest) 0) with c0. py_step.
  rewrite mol_getitem_one_based by done. py_step. cbn [iterate]. py_step.
  rewrite (mapM_ok _ (λ z, Z.to_nat (z - 1))).
  2:{ eapply Forall_impl; [exact Hrange|]. intros z Hz. by apply mol_getitem_one_based. }
  py_step. cbn [mapM]. py_step.
  rewrite app_nil_r.
  destruct (atoms (mol self) !! Z.to_nat (c0 - 1)) as [a0|] eqn:Ha0;
    [|apply lookup_ge_None in Ha0; lia].
  rewrite delete_atoms_filter.
  - py_step. eexists _, a0. split; [reflexivity|].
    cbn [new_atoms s_indices s_lig_residue s_core_topology].
    split; [|done]. f_equal. apply filter_ext_elem. intros [p a] _. cbn [fst].
    rewrite list_elem_of_fmap. split.
    + intros Hp Hin. apply Hp. exists (Z.of_nat p + 1). split; [lia|done].
    + intros Hp (z & -> & Hz). apply Hp.
      rewrite Forall_forall in Hrange. specialize (Hrange z Hz).
      by replace (Z.of_nat (Z.to_nat (z - 1)) + 1) with z by lia.
  - apply (NoDup_fmap_2_strong (λ z, Z.to_nat (z - 1))); [|done].
    intros x y Hx Hy. rewrite Forall_forall in Hrange.
    pose proof (Hrange x Hx). pose proof (Hrange y Hy). lia.
  - intros t Ht. apply list_elem_of_fmap in Ht as (z & -> & Hz).
    rewrite Forall_forall in Hrange. specialize (Hrange z Hz).
    apply list_elem_of_lookup. exists (Z.to_nat (z - 1)).
    rewrite list_lookup_fmap, list_lookup_imap.
    destruct (atoms (mol self) !! Z.to_nat (z - 1)) as [a|] eqn:Ha;
      [reflexivity|]. apply lookup_ge_None in Ha. fold n in Ha. lia.
Qed.

Lemma dissociate_one_without_ligands_witness :
  ∃ d a0, dissociate_one line_engine [] (PSeq [3; 1], []) = Ok d
    ∧ new_atoms d =
      (filter (λ p, Z.of_nat p.1 + 1 ∉ [3; 1]) (imap pair (atoms (mol line_engine)))).*2
    ∧ s_indices d = []
    ∧ s_lig_residue d = []
    ∧ atoms (mol line_engine) !! Z.to_nat (3 - 1) = Some a0
    ∧ s_core_topology d =
      default "<empty Settings>" (topology_label a0) +:+ "_" +:+ string_of_Z 3.
Proof.
  apply (dissociate_one_without_ligands line_engine [] 3 [1]).
  - repeat constructor; simpl; lia.
  - apply (bool_decide_unpack _). reflexivity.
Defined.

(** ** From pairs to molecules *)

(** The results of [_get_value] have integers as core components. *)
Lemma zip_with_get_value_cores pd (cores : list Z) (ligs : list (list Z)) :
  Forall (λ x, ∀ comb, x = Ok comb → ∃ c, comb.1 = PInt c)
         (zip_with (_get_value pd) cores ligs).
Proof.
  revert ligs. induction cores as [|c cores IH]; intros [|l ligs]; simpl;
    try constructor; [|apply IH].
  intros comb Hcomb. exists c. by apply get_value_core in Hcomb.
Qed.

(** A generator that stops at its first exception. *)
Lemma until_raise_Forall {A} (P : res A → Prop) (steps : list (res A)) :
  Forall P steps → Forall P (until_raise steps).
Proof.
  induction 1 as [|[a|e] steps Hx _ IH]; simpl; repeat constructor; done.
Qed.

Lemma until_raise_length {A} (steps : list (res A)) :
  (length (until_raise steps) ≤ length steps)%nat.
Proof. induction steps as [|[a|e] steps IH]; simpl; lia. Qed.

Lemma lookup_until_raise {A} (steps : list (res A)) : ∀ k x,
  until_raise steps !! k = Some x → steps !! k = Some x.
Proof.
  induction steps as [|[a|e] steps IH]; intros [|k] x; simpl; try done.
  apply IH.
Qed.

Lemma until_raise_last {A} (steps : list (res A)) : ∀ k e,
  until_raise steps !! k = Some (Raise e) → length (until_raise steps) = S k.
Proof.
  induction steps as [|[a|e'] steps IH]; intros [|k] e; simpl; try done.
  intros Hk. f_equal. by apply (IH k e).
Qed.

Lemma until_raise_all_ok {A} (steps : list (res A)) :
  (∀ e, Raise e ∉ until_raise steps) → until_raise steps = steps.
Proof.
  induction steps as [|[a|e] steps IH]; intros Hok; simpl in *; [done| |].
  - f_equal. apply IH. intros e He. apply (Hok e). by right.
  - exfalso. apply (Hok e). left.
Qed.

Lemma get_value_raises pd (core : Z) (ligands : list Z) e :
  _get_value pd core ligands = Raise e → ∃ lig, e = KeyError lig ∧ pd !! lig = None.
Proof.
  unfold _get_value.
  induction ligands as [|lig ligands IH]; simpl; [discriminate|].
  destruct (pd !! lig) as [l|] eqn:Hlig; [|intros [= <-]; eauto].
  destruct (mapM _ ligands) as [groups|e'] eqn:Hm; [discriminate|].
  intros [= <-]. by apply IH.
Qed.

Lemma get_combinations_cores `{!ArrayLib} matcher (self : MolDissociater)
    (cor_lig_pairs : list (list Z)) (core_smiles : option string) combs :
  get_combinations matcher self cor_lig_pairs core_smiles = Ok combs →
  Forall (λ x, ∀ comb, x = Ok comb → ∃ c, comb.1 = PInt c) combs.
Proof.
  unfold get_combinations.
  destruct (_core_neighbours _ _ _) as [cores|]; [|discriminate]. py_step.
  intros [= <-]. apply until_raise_Forall, zip_with_get_value_cores.
Qed.

(** A generator over combinations whose core components are integers. *)
Lemma call_on_integer_cores (self : MolDissociater) (combs : list (res combination)) :
  Forall (λ x, ∀ comb, x = Ok comb → ∃ c, comb.1 = PInt c) combs →
  __call__ self combs = [] ∨ ∃ e, __call__ self combs = [Raise e].
Proof.
  intros Hcombs. unfold __call__.
  destruct (_get_new_indices self) as [indices|e]; [|right; eauto].
  destruct combs as [|[comb|e] combs]; [by left|right|right; simpl; eauto].
  apply Forall_cons in Hcombs as [Hcomb _].
  destruct (Hcomb comb eq_refl) as [c Hc]. destruct comb as [core ligs].
  simpl in Hc. subst core. simpl. eauto.
Qed.

(** X17: the combinations that [get_combinations] makes cannot be
    dissociated.  Whatever the pair array and the query, a generator made by
    [__call__] from the result of [get_combinations] yields no molecule: it
    is exhausted at once or raises on its first step (the core component,
    an integer, is subscripted). *)
Theorem call_after_get_combinations_yields_nothing `{!ArrayLib} matcher
    (self : MolDissociater) (cor_lig_pairs : list (list Z))
    (core_smiles : option string) (combs : list (res combination)) :
  get_combinations matcher self cor_lig_pairs core_smiles = Ok combs →
  __call__ self combs = [] ∨ ∃ e, __call__ self combs = [Raise e].
Proof.
  intros Hcombs. apply call_on_integer_cores.
  by apply (get_combinations_cores matcher self cor_lig_pairs core_smiles).
Qed.

Lemma call_after_get_combinations_yields_nothing_witness :
  __call__ two_atoms_engine [Ok (PInt 1, [PChain [1; 2]])] = []
  ∨ ∃ e, __call__ two_atoms_engine [Ok (PInt 1, [PChain [1; 2]])] = [Raise e].
Proof.
  apply (call_after_get_combinations_yields_nothing no_matches two_atoms_engine
           [[1; 0]] None).
  vm_compute. reflexivity.
Defined.

(** X18: without a query, [get_combinations] pairs the core indices of the
    engine with the rows of the pair array by position: the core component
    of the [k]-th combination is the [k]-th core index plus one.  The
    generator stops at the shorter of the two, or before, at the first row
    with a ligand index that is no key of the partition dictionary: that
    step raises [KeyError] and is the last one.  When no step raises there
    are [min(len(core_idx), len(cor_lig_pairs))] combinations.  The first
    column of a row is not read. *)
Theorem get_combinations_pairs_by_position `{!ArrayLib} matcher
    (self : MolDissociater) (cor_lig_pairs : list (list Z)) :
  ∃ combs, get_combinations matcher self cor_lig_pairs None = Ok combs
    ∧ (length combs ≤ Nat.min (length (_core_idx self)) (length cor_lig_pairs))%nat
    ∧ (∀ k comb, combs !! k = Some (Ok comb) →
         ∃ c, _core_idx self !! k = Some c ∧ comb.1 = PInt (wrap64 (1 + c)))
    ∧ (∀ k e, combs !! k = Some (Raise e) →
         length combs = S k
         ∧ ∃ lig, e = KeyError lig ∧ _partition_dict self !! lig = None)
    ∧ ((∀ e, Raise e ∉ combs) →
         length combs = Nat.min (length (_core_idx self)) (length cor_lig_pairs))
    ∧ ∀ firsts, length firsts = length cor_lig_pairs →
        get_combinations matcher self
          (zip_with (λ x row, x :: drop 1 row) firsts cor_lig_pairs) None
        = get_combinations matcher self cor_lig_pairs None.
Proof.
  eexists. split; [apply get_combinations_no_query|].
  set (steps := zip_with _ _ _).
  assert (Hsteps : length steps
            = Nat.min (length (_core_idx self)) (length cor_lig_pairs))
    by (unfold steps; by rewrite length_zip_with, !length_map).
  split; [rewrite <- Hsteps; apply until_raise_length|].
  split.
  { intros k comb Hk. apply lookup_until_raise in Hk.
    apply lookup_zip_with_Some in Hk as (c & l & Hv & Hc & _).
    apply list_lookup_fmap_Some in Hc as (c' & -> & Hc).
    exists c'. split; [done|]. symmetry in Hv. by apply get_value_core in Hv. }
  split.
  { intros k e Hk. split; [by apply (until_raise_last steps k e)|].
    apply lookup_until_raise in Hk.
    apply lookup_zip_with_Some in Hk as (c & l & Hv & _ & _).
    symmetry in Hv. by apply get_value_raises in Hv. }
  split.
  { intros Hok. by rewrite until_raise_all_ok. }
  clear Hsteps. subst steps.
  intros firsts Hlen. rewrite !get_combinations_no_query. do 3 f_equal.
  revert firsts Hlen. induction cor_lig_pairs as [|row rows IH];
    intros [|x firsts] Hlen; try discriminate; [reflexivity|].
  simpl. f_equal; [|apply IH; simpl in Hlen; lia].
  by destruct row.
Qed.

(** ** The workflow *)

Lemma bind_post {A B} (P : res B → Prop) (m : res A) (k : A → res B) :
  (∀ e, P (Raise e)) → (∀ a, m = Ok a → P (k a)) → P (m ≫= k).
Proof. intros Hraise Hok. destruct m as [a|e]; simpl; [by apply Hok|apply Hraise]. Qed.

Lemma remove_bulk_raises `{!ArrayLib} (self : MolDissociater) (max_vec_len : float) :
  ∃ e, remove_bulk self max_vec_len = Raise e.
Proof.
  unfold remove_bulk. destruct (np_take _ _); simpl; eauto.
Qed.

(** X19: [start_dissociate] never yields a molecule.  For every molecule and
    every choice of the arguments the call raises, or it returns a generator
    that is exhausted at once or raises on its first step. *)
Theorem start_dissociate_yields_nothing `{!ArrayLib} to_atnum guess matcher
    pairs_without_cutoff
    (m : Molecule) (lig_count lig_pairs : Z) (core_idx : option pyindices)
    (core_atom : option (Z + string)) (core_smiles : option string)
    (max_core_dist max_lig_dist : option float) (topology : option (gmap Z string)) :
  match start_dissociate to_atnum guess matcher pairs_without_cutoff m lig_count
          lig_pairs core_idx core_atom core_smiles max_core_dist max_lig_dist topology
  with
  | Raise _ => True
  | Ok gen => yields_nothing gen
  end.
Proof.
  set (P := λ r : res (list (res Dissociated)),
         match r with Raise _ => True | Ok gen => yields_nothing gen end).
  assert (Hraise : ∀ e, P (Raise e)) by (intros e; exact I).
  assert (Htail : ∀ (bulk : bool) (ci : pyindices),
            P (dissociate ← __init__ guess m ci lig_count max_core_dist topology;
               dissociate ← (if bulk then remove_bulk dissociate 0.5%float else Ok dissociate);
               dissociate ← assign_topology dissociate;
               cor_lig_pairs ← match max_lig_dist with
                               | Some _ => get_pairs_closest dissociate
                                             (PyIterator (indices_where anchor (mol dissociate)))
                                             lig_pairs
                               | None => pairs_without_cutoff dissociate
                                           (PyIterator (indices_where anchor (mol dissociate)))
                               end;
               cor_lig_combinations ←
                 get_combinations matcher dissociate (shift_ligands cor_lig_pairs) core_smiles;
               Ok (__call__ dissociate cor_lig_combinations))).
  { intros bulk ci.
    apply bind_post; [done|]. intros d0 _.
    apply bind_post; [done|]. intros d1 _.
    apply bind_post; [done|]. intros d2 _.
    apply bind_post; [done|]. intros pairs _.
    apply bind_post; [done|]. intros combs Hcombs.
    apply call_on_integer_cores.
    by apply (get_combinations_cores matcher d2 (shift_ligands pairs) core_smiles). }
  unfold start_dissociate. fold P.
  destruct core_atom as [ca|], core_idx as [ci|]; try exact I.
  - apply bind_post; [done|]. intros [bulk ci'] _. apply Htail.
  - apply bind_post; [done|]. intros [bulk ci'] _. apply Htail.
  - apply bind_post; [done|]. intros [bulk ci'] _. apply Htail.
Qed.

(** X20: the [core_atom] route of [start_dissociate] always raises.  When
    [to_atnum] gives a non-zero atomic number, the engine is built from the
    atoms with that number and [remove_bulk] is called, which never returns;
    no generator is made. *)
Theorem start_dissociate_with_core_atom_raises `{!ArrayLib} to_atnum guess matcher
    pairs_without_cutoff (m : Molecule) (lig_count lig_pairs : Z)
    (core_idx : option pyindices) (ca : Z + string) (a : Z)
    (core_smiles : option string) (max_core_dist max_lig_dist : option float)
    (topology : option (gmap Z string)) :
  to_atnum ca = Ok a → a ≠ 0 →
  is_ok (start_dissociate to_atnum guess matcher pairs_without_cutoff m lig_count
           lig_pairs core_idx (Some ca) core_smiles max_core_dist max_lig_dist
           topology) = false.
Proof.
  intros Hto Ha. unfold start_dissociate. rewrite Hto.
  destruct (a =? 0) eqn:H0; [apply Z.eqb_eq in H0; done|].
  assert (Hgoal : ∀ k : MolDissociater → res (list (res Dissociated)),
            is_ok (dissociate ← __init__ guess m
                     (PySeq (indices_where (λ at_, atnum at_ =? a) m))
                     lig_count max_core_dist topology;
                   dissociate ← remove_bulk dissociate 0.5%float;
                   k dissociate) = false).
  { intros k. destruct (__init__ _ _ _ _ _ _) as [d|]; [|reflexivity]. py_step.
    destruct (remove_bulk_raises d 0.5%float) as [e ->]. reflexivity. }
  destruct core_idx; py_step; rewrite H0; cbn [negb]; cbv beta iota;
    apply Hgoal.
Qed.

Lemma start_dissociate_with_core_atom_raises_witness :
  is_ok (start_dissociate example_to_atnum (λ _ _, 3%float) no_matches
           (λ _ _, Ok []) line_mol 2 1 None (Some (inr "Cd")) None None
           (Some 5%float) None) = false.
Proof.
  apply (start_dissociate_with_core_atom_raises example_to_atnum (λ _ _, 3%float)
           no_matches (λ _ _, Ok []) line_mol 2 1 None (inr "Cd") 48).
  - reflexivity.
  - discriminate.
Defined.

(** ** Helpers of the module *)

(** X21: [iter_repeat] yields every element [times] times in a row: the
    result has [len(iterable) * times] elements and, for [times > 0], its
    element with index [i] is the element with index [i // times] of the
    iterable.  For [times <= 0] nothing is yielded. *)
Theorem iter_repeat_elements {A} (iterable : list A) (times : Z) :
  length (iter_repeat iterable times) = (length iterable * Z.to_nat times)%nat
  ∧ (0 < times → ∀ i : nat,
       iter_repeat iterable times !! i = iterable !! (i / Z.to_nat times)%nat)
  ∧ (times ≤ 0 → iter_repeat iterable times = []).
Proof.
  assert (Hlen : length (iter_repeat iterable times)
                 = (length iterable * Z.to_nat times)%nat).
  { unfold iter_repeat. rewrite (length_concat_uniform (Z.to_nat times)).
    - by rewrite length_map.
    - apply Forall_fmap, Forall_forall. intros x _. simpl. apply length_replicate. }
  split; [exact Hlen|]. split.
  - intros Ht i. set (t := Z.to_nat times). assert (0 < t)%nat by lia.
    pose proof (Nat.div_mod i t ltac:(lia)) as Hdm.
    pose proof (Nat.mod_upper_bound i t ltac:(lia)) as Hmod.
    destruct (iterable !! (i / t)%nat) as [c|] eqn:Hc.
    + rewrite Hdm at 1. rewrite (Nat.mul_comm t).
      by apply lookup_iter_repeat.
    + apply lookup_ge_None. rewrite Hlen. fold t.
      apply lookup_ge_None in Hc. nia.
  - intros Ht. apply length_zero_iff_nil. rewrite Hlen. lia.
Qed.

(** X22: the keys of the dictionary that [partition_mol] returns are exactly
    the keys of the atoms of the molecule, and no key is bound to an empty
    list; in particular a molecule without atoms gives an empty
    dictionary. *)
Theorem partition_mol_keys (self : MolDissociater) (key : option (Atom → Z)) :
  (∀ k, is_Some (partition_mol self key !! k) ↔
        ∃ a, a ∈ atoms (mol self) ∧ default residue_number key a = k)
  ∧ (∀ k l, partition_mol self key !! k = Some l → l ≠ [])
  ∧ (atoms (mol self) = [] → partition_mol self key = ∅).
Proof.
  set (func := default residue_number key).
  assert (Hlook : ∀ k, partition_mol self key !! k =
            match keyed func k (enumerate (atoms (mol self)) 1) with
            | [] => None
            | l => Some l
            end).
  { intros k. unfold partition_mol, partition_mol_of.
    replace (match key with Some f => f | None => residue_number end) with func
      by (subst func; by destruct key).
    apply partition_lookup. }
  assert (Hkeys : ∀ k, is_Some (partition_mol self key !! k) ↔
            ∃ a, a ∈ atoms (mol self) ∧ func a = k).
  { intros k. rewrite Hlook. split.
    - destruct (keyed func k _) as [|i l] eqn:Hk; [by intros [? ?]|]. intros _.
      assert (Hi : i ∈ keyed func k (enumerate (atoms (mol self)) 1))
        by (rewrite Hk; left).
      apply elem_of_keyed in Hi as (_ & a & Ha & Hf).
      exists a. split; [|done]. apply list_elem_of_lookup. eauto.
    - intros (a & Ha & Hf). apply list_elem_of_lookup in Ha as [p Hp].
      assert (Hi : Z.of_nat p + 1 ∈ keyed func k (enumerate (atoms (mol self)) 1)).
      { apply elem_of_keyed. split; [lia|]. exists a. split; [|done].
        by replace (Z.to_nat (Z.of_nat p + 1 - 1)) with p by lia. }
      destruct (keyed func k _); [by apply elem_of_nil in Hi|eauto]. }
  split; [exact Hkeys|]. split.
  - intros k l. rewrite Hlook. destruct (keyed func k _); [discriminate|].
    by intros [= <-].
  - intros Hnil. apply map_eq. intros k. rewrite lookup_empty.
    apply eq_None_not_Some. rewrite Hkeys. intros (a & Ha & _).
    rewrite Hnil in Ha. by apply elem_of_nil in Ha.
Qed.

Lemma set_partition_in_range (marks : list (option nat)) (j : Z) (i : nat) :
  0 ≤ j < Z.of_nat (length marks) →
  set_partition marks j i = Ok (<[Z.to_nat j := Some i]> marks).
Proof.
  intros Hj. unfold set_partition.
  destruct (0 <=? j) eqn:H0; [|apply Z.leb_gt in H0; lia]. rewrite H0.
  destruct (j <? Z.of_nat (length marks)) eqn:H1; [|apply Z.ltb_ge in H1; lia].
  reflexivity.
Qed.

(** The inner loop of [mark_substructure]: one match. *)
Lemma mark_one_match (i : nat) (tup : list Z) : ∀ marks : list (option nat),
  Forall (λ j, 0 ≤ j < Z.of_nat (length marks)) tup →
  ∃ marks', foldM (λ marks j, set_partition marks j i) marks tup = Ok marks'
    ∧ length marks' = length marks
    ∧ ∀ p, (p < length marks)%nat →
        marks' !! p = if decide (Z.of_nat p ∈ tup) then Some (Some i) else marks !! p.
Proof.
  induction tup as [|j tup IH]; intros marks Hr.
  - exists marks. split; [reflexivity|]. split; [reflexivity|].
    intros p _. rewrite decide_False; [done|apply not_elem_of_nil].
  - apply Forall_cons in Hr as [Hj Hr].
    rewrite foldM_cons, set_partition_in_range by done. py_step.
    destruct (IH (<[Z.to_nat j := Some i]> marks)) as (marks' & Hm & Hlen & Hp).
    { by rewrite length_insert. }
    rewrite length_insert in Hlen, Hp.
    exists marks'. split; [exact Hm|]. split; [exact Hlen|].
    intros p Hlt. rewrite (Hp p Hlt).
    destruct (decide (Z.of_nat p ∈ tup)) as [Hin|Hnin].
    + rewrite decide_True; [done|by right].
    + destruct (decide (Z.of_nat p = j)) as [<-|Hne].
      * rewrite decide_True by left. rewrite Nat2Z.id.
        by apply list_lookup_insert_eq.
      * rewrite decide_False by (rewrite not_elem_of_cons; done).
        apply list_lookup_insert_ne. lia.
Qed.

Lemma last_filter_cons {A} (P : A → Prop) `{∀ x, Decision (P x)} (x : A) (l : list A) :
  last (filter P (x :: l)) =
  match last (filter P l) with
  | Some y => Some y
  | None => if decide (P x) then Some x else None
  end.
Proof.
  rewrite filter_cons. destruct (decide (P x)); [|by destruct (last (filter P l))].
  destruct (filter P l) as [|y l'] eqn:Hf; [reflexivity|].
  rewrite last_cons. by destruct (last (y :: l')).
Qed.

(** X23: [mark_substructure] gives every atom that is in a match the number
    of the last match that contains it, and leaves the [smiles_partition] of
    the other atoms as it was (matches numbered from 0 in the order of the
    matcher, atom indices within range). *)
Theorem mark_substructure_last_match_wins
    (matcher : Molecule → string → list (list Z)) (m : Molecule)
    (smiles : string) (marks : list (option nat)) :
  Forall (Forall (λ j, 0 ≤ j < Z.of_nat (length marks))) (matcher m smiles) →
  ∃ marks', mark_substructure matcher m smiles marks = Ok marks'
    ∧ length marks' = length marks
    ∧ ∀ p, (p < length marks)%nat →
        marks' !! p =
        match last (filter (λ i_tup, Z.of_nat p ∈ i_tup.2)
                           (imap pair (matcher m smiles))) with
        | Some i_tup => Some (Some i_tup.1)
        | None => marks !! p
        end.
Proof.
  unfold mark_substructure. intros Hr.
  assert (Hitems : Forall (λ it : nat * list Z,
            Forall (λ j, 0 ≤ j < Z.of_nat (length marks)) it.2)
            (imap pair (matcher m smiles))).
  { apply Forall_forall. intros [i tup] Hin. apply list_elem_of_lookup in Hin as [k Hk].
    rewrite list_lookup_imap in Hk.
    destruct (matcher m smiles !! k) as [t|] eqn:Ht; [|discriminate].
    injection Hk as <- <-. simpl. rewrite Forall_forall in Hr. apply Hr.
    apply list_elem_of_lookup. eauto. }
  clear Hr. revert marks Hitems.
  induction (imap pair (matcher m smiles)) as [|[i tup] items IH]; intros marks Hitems.
  - exists marks. split; [reflexivity|]. split; [reflexivity|]. by intros p _.
  - apply Forall_cons in Hitems as [Htup Hitems]. simpl in Htup.
    destruct (mark_one_match i tup marks Htup) as (marks1 & Hm1 & Hlen1 & Hp1).
    rewrite foldM_cons. cbn [fst snd]. rewrite Hm1. py_step.
    destruct (IH marks1) as (marks' & Hm & Hlen & Hp).
    { by rewrite Hlen1. }
    exists marks'. split; [exact Hm|]. split; [congruence|].
    intros p Hlt. rewrite Hp by lia.
    rewrite (last_filter_cons (λ i_tup : nat * list Z, Z.of_nat p ∈ i_tup.2)).
    destruct (last (filter _ items)) as [it|]; [reflexivity|].
    rewrite (Hp1 p Hlt). cbn [snd fst]. by destruct (decide (Z.of_nat p ∈ tup)).
Qed.

Lemma mark_substructure_last_match_wins_witness :
  ∃ marks', mark_substructure (λ _ _, [[0; 1]; [1; 2]]) line_mol "OO"
              [None; None; None; None] = Ok marks'
    ∧ length marks' = 4%nat
    ∧ marks' !! 1%nat = Some (Some 1%nat).
Proof.
  destruct (mark_substructure_last_match_wins (λ _ _, [[0; 1]; [1; 2]]) line_mol
              "OO" [None; None; None; None]) as (marks' & Hm & Hlen & Hp).
  - repeat constructor; simpl; lia.
  - exists marks'. split; [exact Hm|]. split; [exact Hlen|].
    rewrite Hp by (simpl; lia). reflexivity.
Defined.

(** ** Labels *)

Lemma string_of_Z_round_trip (z : Z) : Z_of_string (string_of_Z z) = Some z.
Proof.
  unfold Z_of_string, string_of_Z. rewrite NilZero.isi.
  - simpl. f_equal. apply DecimalZ.of_to.
  - destruct z as [|p|p]; simpl; try discriminate.
    intros [= H]. by apply DecimalPos.Unsigned.to_uint_nonnil in H.
  - destruct z as [|p|p]; simpl; try discriminate.
    intros [= H]. by apply DecimalPos.Unsigned.to_uint_nonnil in H.
Qed.

Lemma string_app_length (s t : string) :
  String.length (s +:+ t) = (String.length s + String.length t)%nat.
Proof. induction s as [|c s IH]; simpl; [reflexivity|by rewrite IH]. Qed.

Lemma string_app_inj_r (t s1 s2 : string) : s1 +:+ t = s2 +:+ t → s1 = s2.
Proof.
  revert s2. induction s1 as [|c s1 IH]; intros [|c' s2] H; simpl in H.
  - reflexivity.
  - apply (f_equal String.length) in H.
    change (String.length t = S (String.length (s2 +:+ t))) in H.
    rewrite string_app_length in H. lia.
  - apply (f_equal String.length) in H.
    change (S (String.length (s1 +:+ t)) = String.length t) in H.
    rewrite string_app_length in H. lia.
  - injection H as -> H. f_equal. by apply IH.
Qed.

(** X24: the generated labels tell the neighbour counts apart.  A count
    that is not a key of the topology mapping gets the label
    ["<count>_neighbours"], from which the count can be read back, so two
    such counts with the same label are equal. *)
Theorem _get_topology_generic_labels (self : MolDissociater) (i j : Z) :
  _topology self !! i = None → _topology self !! j = None →
  _get_topology self [i] = [string_of_Z i +:+ "_neighbours"]
  ∧ Z_of_string (string_of_Z i) = Some i
  ∧ (_get_topology self [i] = _get_topology self [j] → i = j).
Proof.
  intros Hi Hj. unfold _get_topology. simpl. rewrite Hi, Hj. simpl.
  split; [reflexivity|]. split; [apply string_of_Z_round_trip|].
  intros [= H]. apply string_app_inj_r in H.
  apply (f_equal Z_of_string) in H. rewrite !string_of_Z_round_trip in H.
  congruence.
Qed.

Lemma _get_topology_generic_labels_witness :
  _get_topology two_atoms_engine [12] = [string_of_Z 12 +:+ "_neighbours"]
  ∧ Z_of_string (string_of_Z 12) = Some 12
  ∧ (_get_topology two_atoms_engine [12] = _get_topology two_atoms_engine [7] → 12 = 7).
Proof.
  apply (_get_topology_generic_labels two_atoms_engine 12 7); reflexivity.
Defined.
